(** * Küchenassistent: unit normalisation, transaction ledger and
      inventory aggregation

    A shallow embedding of [lib/db.ts] (the three server-side copies agree
    on [normalize] and on the fold of [getInventory]) together with the
    statements of the specification that concern it, and of the code around
    it: the browser's [calculateInventory], the shaping of the parsed
    command in [lib/parser.ts] and the POST handler of the inventory route.

    Conventions of the embedding.
    - A JavaScript [number] holding a quantity is an exact integer [Z]
      (doubles are exact on integers up to 2^53 in magnitude).  Statements
      about sums carry a bound that keeps every sum in that range; module
      [Double] runs the same fold on binary64 numbers, where sums round.
    - A JavaScript string is a [string] holding the UTF-8 bytes of the text.
    - An optional field [unit?: string] is an [option string]; [None] is
      [undefined].
    - The [Map] of [getInventory] iterates in insertion order, so it is an
      association list whose keys are kept distinct. *)

From Stdlib Require Import ZArith List Bool Ascii String Permutation Lia.
From Stdlib Require Import Floats.PrimFloat Numbers.Cyclic.Int63.PrimInt63.
Import ListNotations.
Local Open Scope string_scope.
Local Open Scope Z_scope.

(** ** Strings: the two built-ins the code calls *)

Module JsString.

Definition code (c : ascii) : nat := nat_of_ascii c.

Definition isUpper (c : ascii) : bool :=
  (Nat.leb 65 (code c) && Nat.leb (code c) 90)%bool.

(** Second byte of a two-byte sequence led by 0xC3 that encodes one of
    U+00C0..U+00DE (capital letters of Latin-1) except U+00D7, the
    multiplication sign. *)
Definition isUpperLatin1 (c : ascii) : bool :=
  (Nat.leb 128 (code c) && Nat.leb (code c) 158
     && negb (Nat.eqb (code c) 151))%bool.

Definition shift32 (c : ascii) : ascii := ascii_of_nat (code c + 32).

(** [String.prototype.toLowerCase] on Basic Latin and the Latin-1
    supplement; every other byte is left as it is. *)
Fixpoint toLowerCase (s : string) : string :=
  match s with
  | EmptyString => EmptyString
  | String c rest =>
      if Nat.eqb (code c) 195 then
        match rest with
        | String d rest' =>
            if isUpperLatin1 d
            then String c (String (shift32 d) (toLowerCase rest'))
            else String c (toLowerCase rest)
        | EmptyString => String c EmptyString
        end
      else if isUpper c then String (shift32 c) (toLowerCase rest)
      else String c (toLowerCase rest)
  end.

(** White space of one byte: TAB, LF, VT, FF, CR and SPACE. *)
Definition isSpace (c : ascii) : bool :=
  (Nat.leb 9 (code c) && Nat.leb (code c) 13 || Nat.eqb (code c) 32)%bool.

Fixpoint trimStart (s : string) : string :=
  match s with
  | EmptyString => EmptyString
  | String c rest => if isSpace c then trimStart rest else s
  end.

Definition reverse (s : string) : string :=
  string_of_list_ascii (rev (list_ascii_of_string s)).

Definition trimEnd (s : string) : string :=
  reverse (trimStart (reverse s)).

(** [String.prototype.trim]. *)
Definition trim (s : string) : string := trimEnd (trimStart s).

End JsString.
Import JsString.

(** ** Data model *)

Inductive TxType : Type := ADD | REMOVE.

Record Transaction : Type := mkTransaction {
  tx_id : string;
  tx_timestamp : Z;
  tx_type : TxType;
  tx_name : string;
  tx_quantity : Z;
  tx_unit : option string
}.

(** [InventoryItem.unit] is declared [string], yet the fold may store
    [tx.unit!] in it, which is [undefined] when the transaction has no
    unit; hence the option. *)
Record InventoryItem : Type := mkItem {
  item_name : string;
  item_quantity : Z;
  item_unit : option string
}.

(** The value type of [inventoryMap]. *)
Record Entry : Type := mkEntry {
  quantity : Z;
  unit : option string
}.

(** The result of [normalize]. *)
Record Normalized : Type := mkNormalized {
  n_quantity : Z;
  n_unit : string
}.

(** ** normalize *)

(** The piece unit, the byte string s-t-0xC3-0xBC-c-k. *)
Definition stueck : string := "stück".

(** [Array.prototype.includes] on an array of strings. *)
Definition includes (xs : list string) (u : string) : bool :=
  existsb (String.eqb u) xs.

(** JavaScript truthiness of an optional string. *)
Definition truthy (u : option string) : bool :=
  match u with
  | Some s => negb (String.eqb s EmptyString)
  | None => false
  end.

Definition normalize (q : Z) (unitLabel : option string) : Normalized :=
  match unitLabel with
  | None => mkNormalized q stueck
  | Some label =>
      if negb (truthy unitLabel) then mkNormalized q stueck
      else
        let u := trim (toLowerCase label) in
        if includes ["kg"; "kilo"; "kilogramm"] u then mkNormalized (q * 1000) "g"
        else if includes ["g"; "gramm"; "gr"] u then mkNormalized q "g"
        else if includes ["l"; "liter"] u then mkNormalized (q * 1000) "ml"
        else if includes ["ml"; "milliliter"] u then mkNormalized q "ml"
        else mkNormalized q u
  end.

(** ** The inventory map

    [Map<string, { quantity, unit }>]: [set] replaces the value of a key
    that is present, in place, and appends a key that is not. *)

Definition InventoryMap : Type := list (string * Entry).

Fixpoint get (key : string) (m : InventoryMap) : option Entry :=
  match m with
  | [] => None
  | (k, v) :: rest => if String.eqb k key then Some v else get key rest
  end.

Definition has (key : string) (m : InventoryMap) : bool :=
  match get key m with
  | Some _ => true
  | None => false
  end.

Fixpoint set (key : string) (v : Entry) (m : InventoryMap) : InventoryMap :=
  match m with
  | [] => [(key, v)]
  | (k, w) :: rest =>
      if String.eqb k key then (k, v) :: rest else (k, w) :: set key v rest
  end.

Definition keys (m : InventoryMap) : list string := map fst m.

(** ** getInventory: the fold *)

(** [tx.unit || 'stück']. *)
Definition unitOrDefault (u : option string) : string :=
  match u with
  | Some s => if String.eqb s EmptyString then stueck else s
  | None => stueck
  end.

(** [===] on two values that are a string or [undefined]. *)
Definition unitEq (a b : option string) : bool :=
  match a, b with
  | Some x, Some y => String.eqb x y
  | None, None => true
  | _, _ => false
  end.

Definition keyOf (tx : Transaction) : string := toLowerCase (tx_name tx).

(** The entry a key gets on first sight. *)
Definition initial (tx : Transaction) : Entry :=
  mkEntry 0 (Some (unitOrDefault (tx_unit tx))).

(** The statements of the loop body that mutate [current]. *)
Definition update (current : Entry) (tx : Transaction) : Entry :=
  match tx_type tx with
  | ADD =>
      if quantity current =? 0 then
        mkEntry (quantity current + tx_quantity tx) (tx_unit tx)
      else if unitEq (unit current) (tx_unit tx) then
        mkEntry (quantity current + tx_quantity tx) (unit current)
      else
        mkEntry (quantity current + tx_quantity tx) (unit current)
  | REMOVE =>
      if unitEq (unit current) (tx_unit tx) then
        mkEntry (quantity current - tx_quantity tx) (unit current)
      else
        current
  end.

(** The entry the loop body calls [current]: the stored one, or the initial
    one on first sight of the key. *)
Definition currentOf (m : InventoryMap) (tx : Transaction) : Entry :=
  match get (keyOf tx) m with
  | Some e => e
  | None => initial tx
  end.

(** The map after the lazy initialisation of the key of [tx]. *)
Definition ensure (m : InventoryMap) (tx : Transaction) : InventoryMap :=
  if has (keyOf tx) m then m else set (keyOf tx) (initial tx) m.

(** One iteration of [for (const tx of transactions)].  [current] aliases
    the object stored in the map, so assigning its fields is [set] on a key
    that is present. *)
Definition step (m : InventoryMap) (tx : Transaction) : InventoryMap :=
  let m1 := ensure m tx in
  match get (keyOf tx) m1 with
  | Some current => set (keyOf tx) (update current tx) m1
  | None => m1
  end.

Definition foldTransactions (transactions : list Transaction) : InventoryMap :=
  fold_left step transactions [].

(** [transactions.slice().reverse().find(t => t.name.toLowerCase() === key)]
    and the name shown for the key. *)
Definition displayName (transactions : list Transaction) (key : string) : string :=
  match find (fun t => String.eqb (keyOf t) key) (rev transactions) with
  | Some lastTx => tx_name lastTx
  | None => key
  end.

(** The body of [inventoryMap.forEach]. *)
Definition emit (transactions : list Transaction) (kv : string * Entry)
  : list InventoryItem :=
  let (key, value) := kv in
  if quantity value >? 0
  then [mkItem (displayName transactions key) (quantity value) (unit value)]
  else [].

(** [getInventory], as a function of what [getTransactions] returned. *)
Definition getInventory (transactions : list Transaction) : list InventoryItem :=
  flat_map (emit transactions) (foldTransactions transactions).

(** The items of a snapshot that belong to a case-folded key. *)
Definition itemsOf (key : string) (items : list InventoryItem) : list InventoryItem :=
  filter (fun it => String.eqb (toLowerCase (item_name it)) key) items.

(** Shorthands for ledgers written by hand. *)
Definition Add (q : Z) (name : string) (u : string) : Transaction :=
  mkTransaction EmptyString 0 ADD name q (Some u).

Definition Remove (q : Z) (name : string) (u : string) : Transaction :=
  mkTransaction EmptyString 0 REMOVE name q (Some u).

(** The signed effect of the transactions of a key, and whether it has any. *)
Definition signed (tx : Transaction) : Z :=
  match tx_type tx with
  | ADD => tx_quantity tx
  | REMOVE => - tx_quantity tx
  end.

Definition concerns (key : string) (tx : Transaction) : bool :=
  String.eqb (keyOf tx) key.

Definition net (key : string) (transactions : list Transaction) : Z :=
  fold_right (fun tx acc => signed tx + acc) 0 (filter (concerns key) transactions).

Definition mentioned (key : string) (transactions : list Transaction) : bool :=
  existsb (concerns key) transactions.

(** ** Reading and appending: the persistence code

    What the file system or the database does is the environment's choice;
    a backend value fixes it: what is stored, and whether the next read or
    write operation fails.  A call either returns or throws. *)

Inductive IOError : Type := EIO | ESyntax | EUndefinedTable.

Inductive Outcome (A : Type) : Type :=
| Returns (a : A)
| Throws (e : IOError).
Arguments Returns {A} a.
Arguments Throws {A} e.

Definition bind {A B : Type} (c : Outcome A) (k : A -> Outcome B) : Outcome B :=
  match c with
  | Returns a => k a
  | Throws e => Throws e
  end.

(** [try { body } catch (error) { handler }]. *)
Definition tryCatch {A : Type} (body : Outcome A) (handler : IOError -> Outcome A)
  : Outcome A :=
  match body with
  | Returns a => Returns a
  | Throws e => handler e
  end.

Notation "x <- c ;; k" := (bind c (fun x => k))
  (at level 61, c at next level, right associativity).

Module LocalFile.

(** The content of [data/transactions.json]. *)
Inductive File : Type :=
| Missing
| Json (transactions : list Transaction)
| Malformed.

Record Backend : Type := mkBackend {
  file : File;
  readFails : bool;
  writeFails : bool
}.

Definition existsSync (b : Backend) : bool :=
  match file b with
  | Missing => false
  | _ => true
  end.

Definition readFileSync (b : Backend) : Outcome File :=
  if readFails b then Throws EIO
  else match file b with
       | Missing => Throws EIO
       | f => Returns f
       end.

Definition parse (f : File) : Outcome (list Transaction) :=
  match f with
  | Json transactions => Returns transactions
  | _ => Throws ESyntax
  end.

(** What a failed write leaves in the file (it may be truncated) is not
    modelled: the backend returned with [Throws] is the one before, and no
    statement below speaks of the file after a failed write. *)
Definition writeFileSync (b : Backend) (transactions : list Transaction)
  : Outcome Datatypes.unit * Backend :=
  if writeFails b then (Throws EIO, b)
  else (Returns tt, mkBackend (Json transactions) (readFails b) (writeFails b)).

(** [getTransactions] of the synchronous copy. *)
Definition getTransactions (b : Backend) : Outcome (list Transaction) :=
  tryCatch
    (if negb (existsSync b) then Returns []
     else data <- readFileSync b ;; parse data)
    (fun _ => Returns []).

(** [addTransaction] of the synchronous copy; [id] and [timestamp] stand
    for what [Date.now()] and [Math.random()] deliver. *)
Definition addTransaction (id : string) (timestamp : Z) (type : TxType)
    (name : string) (q : Z) (unitLabel : option string) (b : Backend)
  : Outcome Transaction * Backend :=
  match getTransactions b with
  | Throws e => (Throws e, b)
  | Returns transactions =>
      let normalized := normalize q unitLabel in
      let newTransaction :=
        mkTransaction id timestamp type name
          (n_quantity normalized) (Some (n_unit normalized)) in
      match writeFileSync b (transactions ++ [newTransaction])%list with
      | (Throws e, b') => (Throws e, b')
      | (Returns _, b') => (Returns newTransaction, b')
      end
  end.

(** [ensureDataFile]: creates the file holding [[]] when it is missing. *)
Definition ensureDataFile (b : Backend) : Outcome Datatypes.unit * Backend :=
  match file b with
  | Missing => writeFileSync b []
  | _ => (Returns tt, b)
  end.

(** [getTransactionsLocal]. *)
Definition getTransactionsLocal (b : Backend)
  : Outcome (list Transaction) * Backend :=
  match ensureDataFile b with
  | (Throws _, b') => (Returns [], b')
  | (Returns _, b') =>
      (tryCatch (data <- readFileSync b' ;; parse data) (fun _ => Returns []), b')
  end.

End LocalFile.

Module Postgres.

(** What [SELECT * FROM transactions ORDER BY timestamp ASC] and
    [CREATE TABLE IF NOT EXISTS] do when they are issued, and, for a SELECT
    that throws, the [message] and [code] of the error object it throws. *)
Record Database : Type := mkDatabase {
  selectAll : Outcome (list Transaction);
  errorMessage : option string;
  errorCode : option string;
  createTable : Outcome Datatypes.unit
}.

(** [unit: row.unit || undefined]. *)
Definition ofRow (row : Transaction) : Transaction :=
  mkTransaction (tx_id row) (tx_timestamp row) (tx_type row) (tx_name row)
    (tx_quantity row) (if truthy (tx_unit row) then tx_unit row else None).

Definition ensureTable (db : Database) : Outcome Datatypes.unit := createTable db.

(** [String.prototype.includes]. *)
Definition includesText (needle text : string) : bool :=
  match String.index 0 needle text with
  | Some _ => true
  | None => false
  end.

(** [error.message && (error.message.includes('does not exist') ||
    error.code === '42P01')]. *)
Definition tableSeemsMissing (db : Database) : bool :=
  match errorMessage db with
  | Some message =>
      (truthy (Some message) &&
       (includesText "does not exist" message ||
        unitEq (errorCode db) (Some "42P01")))%bool
  | None => false
  end.

Definition getTransactionsPG (db : Database) : Outcome (list Transaction) :=
  tryCatch
    (rows <- selectAll db ;; Returns (map ofRow rows))
    (fun error =>
       if tableSeemsMissing db
       then _ <- ensureTable db ;; Returns []
       else Returns []).

(** [addTransactionPG] when the statement succeeds: one [INSERT], which
    the database applies as a whole. *)
Definition addTransactionPG (table : list Transaction) (t : Transaction)
  : list Transaction :=
  (table ++ [t])%list.

End Postgres.

(** ** Appends that overlap in time

    [addTransactionBlob] awaits twice: once for the stored array and once
    for [put], which overwrites the blob with the array it read plus its own
    transaction.  Between the two, other calls run.  A schedule names, step
    by step, the call that is resumed. *)

Module Blob.

Inductive Pending : Type :=
| AwaitList
| AwaitPut (transactions : list Transaction)
| Resolved.

Record Call : Type := mkCall {
  transaction : Transaction;
  pending : Pending
}.

Definition addTransactionBlob (t : Transaction) : Call := mkCall t AwaitList.

Definition resume (blob : list Transaction) (c : Call)
  : list Transaction * Call :=
  match pending c with
  | AwaitList => (blob, mkCall (transaction c) (AwaitPut blob))
  | AwaitPut transactions =>
      ((transactions ++ [transaction c])%list, mkCall (transaction c) Resolved)
  | Resolved => (blob, c)
  end.

Fixpoint replace (i : nat) (c : Call) (calls : list Call) : list Call :=
  match calls, i with
  | [], _ => []
  | _ :: rest, O => c :: rest
  | d :: rest, S j => d :: replace j c rest
  end.

Fixpoint run (schedule : list nat) (blob : list Transaction) (calls : list Call)
  : list Transaction * list Call :=
  match schedule with
  | [] => (blob, calls)
  | i :: later =>
      match nth_error calls i with
      | Some c =>
          let (blob', c') := resume blob c in
          run later blob' (replace i c' calls)
      | None => run later blob calls
      end
  end.

End Blob.

(** Every transaction of the key has the unit [u]. *)
Definition carries (key : string) (u : option string)
    (transactions : list Transaction) : Prop :=
  Forall (fun tx => concerns key tx = true -> tx_unit tx = u) transactions.

(** The snapshot entry of a key, from the entry the fold ended with. *)
Definition shown (transactions : list Transaction) (key : string)
    (final : option Entry) : list InventoryItem :=
  match final with
  | Some e => emit transactions (key, e)
  | None => []
  end.

(** ** The browser's copy of the fold

    [calculateInventory] of the page that keeps the ledger in
    [localStorage]: an Add at balance 0 takes [tx.unit || 'stück'], every
    other Add adds, and a Remove subtracts whatever its unit is. *)

Module Client.

Definition update (current : Entry) (tx : Transaction) : Entry :=
  match tx_type tx with
  | ADD =>
      if quantity current =? 0 then
        mkEntry (quantity current + tx_quantity tx)
                (Some (unitOrDefault (tx_unit tx)))
      else
        mkEntry (quantity current + tx_quantity tx) (unit current)
  | REMOVE => mkEntry (quantity current - tx_quantity tx) (unit current)
  end.

Definition step (m : InventoryMap) (tx : Transaction) : InventoryMap :=
  let m1 := ensure m tx in
  match get (keyOf tx) m1 with
  | Some current => set (keyOf tx) (update current tx) m1
  | None => m1
  end.

Definition calculateInventory (transactions : list Transaction)
  : list InventoryItem :=
  flat_map (emit transactions) (fold_left step transactions []).

End Client.

(** The quantity the fold ended with for a key, 0 for a key it never saw. *)
Definition balance (transactions : list Transaction) (key : string) : Z :=
  match get key (foldTransactions transactions) with
  | Some e => quantity e
  | None => 0
  end.

(** The case-folded key an item of the snapshot stands for. *)
Definition itemKey (it : InventoryItem) : string := toLowerCase (item_name it).

(** ** From the parsed command to the ledger

    [parseCommand] shapes what the language model answered, and the POST
    handler of the inventory route decides whether the command is recorded.
    The fields the interface types as strings are taken to be strings or
    absent; [pd_quantity] is [Some n] when [typeof quantity === 'number']. *)

Module Api.

Inductive Action : Type := add | remove | unknown.

(** [parsedData], the object [JSON.parse] returned. *)
Record ParsedData : Type := mkParsedData {
  pd_action : option string;
  pd_item : option string;
  pd_quantity : option Z;
  pd_unit : option string
}.

Record ParsedCommand : Type := mkParsedCommand {
  action : Action;
  item : option string;
  cmd_quantity : option Z;
  cmd_unit : option string
}.

(** How the call of the language model ended. *)
Inductive Answer : Type :=
| NoApiKey
| CallFailed
| EmptyText
| NotJson
| Parsed (parsedData : ParsedData).

(** [['add', 'remove'].includes(parsedData.action) ? parsedData.action : 'unknown']. *)
Definition actionOf (a : option string) : Action :=
  match a with
  | Some s =>
      if includes ["add"; "remove"] s
      then (if String.eqb s "add" then add else remove)
      else unknown
  | None => unknown
  end.

Definition parseCommand (answer : Answer) : ParsedCommand :=
  match answer with
  | Parsed parsedData =>
      mkParsedCommand
        (actionOf (pd_action parsedData))
        (pd_item parsedData)
        (Some (match pd_quantity parsedData with Some n => n | None => 1 end))
        (if truthy (pd_unit parsedData) then pd_unit parsedData else None)
  | _ => mkParsedCommand unknown None None None
  end.

(** The condition of the handler and the arguments it passes on:
    [(action === 'add' || action === 'remove') && parsed.item && parsed.quantity]. *)
Definition accepted (parsed : ParsedCommand) : option (TxType * string * Z) :=
  match action parsed, item parsed, cmd_quantity parsed with
  | unknown, _, _ => None
  | a, Some name, Some q =>
      if (truthy (Some name) && negb (q =? 0))%bool
      then Some (match a with add => ADD | _ => REMOVE end, name, q)
      else None
  | _, _, _ => None
  end.

(** [addTransaction] and [getInventory] of the asynchronous file copy. *)
Definition addTransaction (id : string) (timestamp : Z) (type : TxType)
    (name : string) (q : Z) (unitLabel : option string) (b : LocalFile.Backend)
  : Outcome Transaction * LocalFile.Backend :=
  let normalized := normalize q unitLabel in
  let newTransaction :=
    mkTransaction id timestamp type name
      (n_quantity normalized) (Some (n_unit normalized)) in
  match LocalFile.getTransactionsLocal b with
  | (Throws e, b1) => (Throws e, b1)
  | (Returns transactions, b1) =>
      match LocalFile.writeFileSync b1 (transactions ++ [newTransaction])%list with
      | (Throws e, b2) => (Throws e, b2)
      | (Returns _, b2) => (Returns newTransaction, b2)
      end
  end.

Definition getInventoryOf (b : LocalFile.Backend)
  : Outcome (list InventoryItem) * LocalFile.Backend :=
  match LocalFile.getTransactionsLocal b with
  | (Throws e, b1) => (Throws e, b1)
  | (Returns transactions, b1) => (Returns (getInventory transactions), b1)
  end.

Inductive Response : Type :=
| Status200 (inventory : list InventoryItem)
| Status400
| Status500.

(** [POST]: [command] is [body.command]. *)
Definition POST (command : option string) (answer : Answer)
    (id : string) (timestamp : Z) (b : LocalFile.Backend)
  : Response * LocalFile.Backend :=
  if truthy command then
    let parsed := parseCommand answer in
    match accepted parsed with
    | Some (type, name, q) =>
        match addTransaction id timestamp type name q (cmd_unit parsed) b with
        | (Throws _, b1) => (Status500, b1)
        | (Returns _, b1) =>
            match getInventoryOf b1 with
            | (Throws _, b2) => (Status500, b2)
            | (Returns inventory, b2) => (Status200 inventory, b2)
            end
        end
    | None => (Status400, b)
    end
  else (Status400, b).

End Api.

(** What every call may hold while a run is under way: its own transaction,
    and a copy of the blob made of known transactions only. *)
Definition callWithin (known : list Transaction) (c : Blob.Call) : Prop :=
  In (Blob.transaction c) known /\
  match Blob.pending c with
  | Blob.AwaitPut transactions => incl transactions known
  | _ => True
  end.

(** The first byte of a string is not the second byte of a capital letter
    of Latin-1; the first byte of a string is not white space. *)
Definition headNotUpperLatin1 (s : string) : Prop :=
  match s with
  | String d _ => isUpperLatin1 d = false
  | EmptyString => True
  end.

Definition headNotSpace (s : string) : Prop :=
  match s with
  | String c _ => isSpace c = false
  | EmptyString => True
  end.

(** A transaction and an item with the name written in lower case. *)
Definition lowerCased (tx : Transaction) : Transaction :=
  mkTransaction (tx_id tx) (tx_timestamp tx) (tx_type tx)
    (toLowerCase (tx_name tx)) (tx_quantity tx) (tx_unit tx).

Definition lowerCasedItem (it : InventoryItem) : InventoryItem :=
  mkItem (toLowerCase (item_name it)) (item_quantity it) (item_unit it).

(** ** Quantities as the doubles they are

    [Number.MAX_SAFE_INTEGER]: sums of integers that stay within it are
    computed exactly by binary64 addition and subtraction. *)
Definition MAX_SAFE_INTEGER : Z := 9007199254740991.

(** The sum of the absolute values of the quantities of a key: a bound on
    every balance the key can pass through, in whatever order. *)
Definition magnitude (key : string) (transactions : list Transaction) : Z :=
  fold_right (fun tx acc => Z.abs (tx_quantity tx) + acc) 0
             (filter (concerns key) transactions).

(** The fold of [getInventory] once more, on binary64 numbers. *)
Module Double.

Definition number : Set := PrimFloat.float.

Definition zero : number := PrimFloat.of_uint63 0%uint63.

(** The number an integer literal, and a decimal literal n/d, stand for. *)
Definition ofInteger (n : PrimInt63.int) : number := PrimFloat.of_uint63 n.

Definition ofRatio (n d : PrimInt63.int) : number :=
  PrimFloat.div (PrimFloat.of_uint63 n) (PrimFloat.of_uint63 d).

Record Transaction : Type := mkTransaction {
  tx_id : string;
  tx_timestamp : Z;
  tx_type : TxType;
  tx_name : string;
  tx_quantity : number;
  tx_unit : option string
}.

Record InventoryItem : Type := mkItem {
  item_name : string;
  item_quantity : number;
  item_unit : option string
}.

Record Entry : Type := mkEntry {
  quantity : number;
  unit : option string
}.

Definition InventoryMap : Type := list (string * Entry).

Fixpoint get (key : string) (m : InventoryMap) : option Entry :=
  match m with
  | [] => None
  | (k, v) :: rest => if String.eqb k key then Some v else get key rest
  end.

Definition has (key : string) (m : InventoryMap) : bool :=
  match get key m with
  | Some _ => true
  | None => false
  end.

Fixpoint set (key : string) (v : Entry) (m : InventoryMap) : InventoryMap :=
  match m with
  | [] => [(key, v)]
  | (k, w) :: rest =>
      if String.eqb k key then (k, v) :: rest else (k, w) :: set key v rest
  end.

Definition keyOf (tx : Transaction) : string := toLowerCase (tx_name tx).

Definition initial (tx : Transaction) : Entry :=
  mkEntry zero (Some (unitOrDefault (tx_unit tx))).

Definition update (current : Entry) (tx : Transaction) : Entry :=
  match tx_type tx with
  | ADD =>
      if PrimFloat.eqb (quantity current) zero then
        mkEntry (PrimFloat.add (quantity current) (tx_quantity tx)) (tx_unit tx)
      else if unitEq (unit current) (tx_unit tx) then
        mkEntry (PrimFloat.add (quantity current) (tx_quantity tx)) (unit current)
      else
        mkEntry (PrimFloat.add (quantity current) (tx_quantity tx)) (unit current)
  | REMOVE =>
      if unitEq (unit current) (tx_unit tx) then
        mkEntry (PrimFloat.sub (quantity current) (tx_quantity tx)) (unit current)
      else
        current
  end.

Definition ensure (m : InventoryMap) (tx : Transaction) : InventoryMap :=
  if has (keyOf tx) m then m else set (keyOf tx) (initial tx) m.

Definition step (m : InventoryMap) (tx : Transaction) : InventoryMap :=
  let m1 := ensure m tx in
  match get (keyOf tx) m1 with
  | Some current => set (keyOf tx) (update current tx) m1
  | None => m1
  end.

Definition displayName (transactions : list Transaction) (key : string) : string :=
  match find (fun t => String.eqb (keyOf t) key) (rev transactions) with
  | Some lastTx => tx_name lastTx
  | None => key
  end.

Definition emit (transactions : list Transaction) (kv : string * Entry)
  : list InventoryItem :=
  let (key, value) := kv in
  if PrimFloat.ltb zero (quantity value)
  then [mkItem (displayName transactions key) (quantity value) (unit value)]
  else [].

Definition getInventory (transactions : list Transaction) : list InventoryItem :=
  flat_map (emit transactions) (fold_left step transactions []).

Definition Add (q : number) (name u : string) : Transaction :=
  mkTransaction EmptyString 0 ADD name q (Some u).

Definition Remove (q : number) (name u : string) : Transaction :=
  mkTransaction EmptyString 0 REMOVE name q (Some u).

End Double.

(** * Properties *)

Example normalize_kg : normalize 2 (Some "kg") = mkNormalized 2000 "g".
Proof. reflexivity. Qed.

Example normalize_Liter : normalize 1 (Some " Liter ") = mkNormalized 1000 "ml".
Proof. reflexivity. Qed.

Example normalize_Stueck : normalize 5 (Some "Stück") = mkNormalized 5 stueck.
Proof. reflexivity. Qed.

Example toLowerCase_umlaut : toLowerCase "ÄPFEL" = "äpfel".
Proof. reflexivity. Qed.

Example normalize_blank : normalize 7 (Some "  ") = mkNormalized 7 EmptyString.
Proof. reflexivity. Qed.

(** ** The inventory map *)

Section MapFacts.

Variables (key : string) (v : Entry).

Lemma get_set_same (m : InventoryMap) : get key (set key v m) = Some v.
Proof.
  induction m as [|[k w] rest IH]; simpl.
  - now rewrite String.eqb_refl.
  - destruct (String.eqb k key) eqn:E; simpl; rewrite E; auto.
Qed.

Lemma get_set_other (other : string) (m : InventoryMap) :
  other <> key -> get other (set key v m) = get other m.
Proof.
  intros Hne. induction m as [|[k w] rest IH]; simpl.
  - destruct (String.eqb_spec key other); congruence.
  - destruct (String.eqb_spec k key) as [->|Hk]; simpl.
    + destruct (String.eqb_spec key other); congruence.
    + now rewrite IH.
Qed.

Lemma set_present (m : InventoryMap) :
  has key m = true -> keys (set key v m) = keys m.
Proof.
  unfold has. induction m as [|[k w] rest IH]; simpl.
  - discriminate.
  - destruct (String.eqb k key); simpl; intros H; auto.
    now rewrite IH.
Qed.

Lemma set_absent (m : InventoryMap) :
  has key m = false -> set key v m = (m ++ [(key, v)])%list.
Proof.
  unfold has. induction m as [|[k w] rest IH]; simpl; auto.
  destruct (String.eqb k key); simpl; intros H.
  - discriminate.
  - now rewrite IH.
Qed.

Lemma has_In (m : InventoryMap) : has key m = true <-> In key (keys m).
Proof.
  unfold has. induction m as [|[k w] rest IH]; simpl.
  - split; [discriminate | tauto].
  - destruct (String.eqb_spec k key) as [->|Hk].
    + split; auto.
    + rewrite IH. split; [auto | intros [H|H]; congruence].
Qed.

End MapFacts.

Lemma has_false_notin (key : string) (m : InventoryMap) :
  has key m = false <-> ~ In key (keys m).
Proof.
  rewrite <- has_In. destruct (has key m); split; congruence.
Qed.

(** ** One iteration of the loop *)

Lemma get_ensure (m : InventoryMap) (tx : Transaction) :
  get (keyOf tx) (ensure m tx) = Some (currentOf m tx).
Proof.
  unfold ensure, currentOf, has.
  destruct (get (keyOf tx) m) eqn:E; auto.
  apply get_set_same.
Qed.

Lemma step_eq (m : InventoryMap) (tx : Transaction) :
  step m tx = set (keyOf tx) (update (currentOf m tx) tx) (ensure m tx).
Proof. unfold step. now rewrite get_ensure. Qed.

Lemma get_step (key : string) (m : InventoryMap) (tx : Transaction) :
  get key (step m tx) =
  if concerns key tx then Some (update (currentOf m tx) tx) else get key m.
Proof.
  rewrite step_eq. unfold concerns.
  destruct (String.eqb_spec (keyOf tx) key) as [<-|Hne].
  - apply get_set_same.
  - rewrite get_set_other by congruence.
    unfold ensure. destruct (has (keyOf tx) m); auto.
    apply get_set_other. congruence.
Qed.

Lemma has_ensure (m : InventoryMap) (tx : Transaction) :
  has (keyOf tx) (ensure m tx) = true.
Proof. unfold has. now rewrite get_ensure. Qed.

Lemma keys_ensure (m : InventoryMap) (tx : Transaction) :
  keys (ensure m tx) =
  if has (keyOf tx) m then keys m else (keys m ++ [keyOf tx])%list.
Proof.
  unfold ensure. destruct (has (keyOf tx) m) eqn:E; auto.
  rewrite set_absent by assumption. unfold keys. now rewrite map_app.
Qed.

Lemma keys_step (m : InventoryMap) (tx : Transaction) :
  keys (step m tx) =
  if has (keyOf tx) m then keys m else (keys m ++ [keyOf tx])%list.
Proof.
  rewrite step_eq, set_present by apply has_ensure. apply keys_ensure.
Qed.

Lemma NoDup_step (m : InventoryMap) (tx : Transaction) :
  NoDup (keys m) -> NoDup (keys (step m tx)).
Proof.
  intros Hm. rewrite keys_step.
  destruct (has (keyOf tx) m) eqn:E; auto.
  apply has_false_notin in E.
  apply NoDup_rev in Hm. rewrite <- (rev_involutive (_ ++ _)).
  apply NoDup_rev. rewrite rev_app_distr. simpl.
  constructor; auto. now rewrite <- in_rev.
Qed.

(** ** The fold *)

Lemma NoDup_fold (transactions : list Transaction) :
  forall m, NoDup (keys m) -> NoDup (keys (fold_left step transactions m)).
Proof.
  induction transactions as [|tx rest IH]; simpl; auto using NoDup_step.
Qed.

Lemma keys_fold (key : string) (transactions : list Transaction) :
  forall m, In key (keys (fold_left step transactions m)) ->
            In key (keys m) \/ mentioned key transactions = true.
Proof.
  induction transactions as [|tx rest IH]; simpl; intros m H; auto.
  apply IH in H. destruct H as [H|H].
  - rewrite keys_step in H. destruct (has (keyOf tx) m); auto.
    apply in_app_or in H. destruct H as [H|[H|[]]]; auto.
    right. unfold concerns at 1. rewrite H, String.eqb_refl. reflexivity.
  - right. rewrite H. apply orb_true_r.
Qed.

(** Transactions of other keys leave the entry of a key alone. *)
Lemma get_fold_unconcerned (key : string) (transactions : list Transaction) :
  forall m, mentioned key transactions = false ->
            get key (fold_left step transactions m) = get key m.
Proof.
  induction transactions as [|tx rest IH]; simpl; intros m H; auto.
  apply orb_false_elim in H. destruct H as [H1 H2].
  rewrite IH, get_step, H1; auto.
Qed.

Lemma fold_snoc (transactions : list Transaction) (tx : Transaction) :
  foldTransactions (transactions ++ [tx]) = step (foldTransactions transactions) tx.
Proof. unfold foldTransactions. now rewrite fold_left_app. Qed.

(** ** The snapshot *)

Lemma unitEq_true (a b : option string) : unitEq a b = true <-> a = b.
Proof.
  destruct a as [x|], b as [y|]; simpl; try (split; congruence).
  rewrite String.eqb_eq. split; congruence.
Qed.

Lemma unitEq_false (a b : option string) : unitEq a b = false <-> a <> b.
Proof.
  rewrite <- unitEq_true. destruct (unitEq a b); split; congruence.
Qed.

Lemma set_unchanged (key : string) (e : Entry) (m : InventoryMap) :
  get key m = Some e -> set key e m = m.
Proof.
  induction m as [|[k w] rest IH]; simpl; [discriminate|].
  destruct (String.eqb k key); intros H.
  - congruence.
  - now rewrite IH.
Qed.

Lemma displayName_key (transactions : list Transaction) (key : string) :
  mentioned key transactions = true ->
  toLowerCase (displayName transactions key) = key.
Proof.
  unfold mentioned, displayName. intros H.
  apply existsb_exists in H. destruct H as [t [Hin Ht]].
  destruct (find _ (rev transactions)) as [lastTx|] eqn:F.
  - apply find_some in F. destruct F as [_ F].
    now apply String.eqb_eq in F.
  - apply find_none with (x := t) in F.
    + unfold concerns in Ht. congruence.
    + now apply in_rev in Hin.
Qed.

Lemma itemsOf_emit_same (transactions : list Transaction) (key : string) (e : Entry) :
  toLowerCase (displayName transactions key) = key ->
  itemsOf key (emit transactions (key, e)) = emit transactions (key, e).
Proof.
  intros H. unfold emit, itemsOf. destruct (quantity e >? 0); simpl; auto.
  now rewrite H, String.eqb_refl.
Qed.

Lemma itemsOf_emit_other (transactions : list Transaction) (key k : string) (e : Entry) :
  toLowerCase (displayName transactions k) = k -> k <> key ->
  itemsOf key (emit transactions (k, e)) = [].
Proof.
  intros H Hne. unfold emit, itemsOf. destruct (quantity e >? 0); simpl; auto.
  rewrite H. now destruct (String.eqb_spec k key).
Qed.

Lemma itemsOf_app (key : string) (xs ys : list InventoryItem) :
  itemsOf key (xs ++ ys) = (itemsOf key xs ++ itemsOf key ys)%list.
Proof. apply filter_app. Qed.

Lemma itemsOf_flat_map (transactions : list Transaction) (key : string) :
  forall m : InventoryMap,
    NoDup (keys m) ->
    (forall k, In k (keys m) -> toLowerCase (displayName transactions k) = k) ->
    itemsOf key (flat_map (emit transactions) m) = shown transactions key (get key m).
Proof.
  induction m as [|[k w] rest IH]; intros Hnd Hk; auto.
  cbn [flat_map]. rewrite itemsOf_app.
  simpl in Hnd. apply NoDup_cons_iff in Hnd. destruct Hnd as [Hnotin Hnd].
  rewrite IH; auto; [|intros; apply Hk; simpl; auto].
  cbn [get]. destruct (String.eqb_spec k key) as [->|Hne].
  - apply has_false_notin in Hnotin. unfold has in Hnotin.
    destruct (get key rest); [discriminate|].
    unfold shown. rewrite app_nil_r.
    apply itemsOf_emit_same. apply Hk. simpl; auto.
  - rewrite itemsOf_emit_other; auto. apply Hk. simpl; auto.
Qed.

(** The part of the snapshot that belongs to a key is decided by the entry
    the fold ended with for that key. *)
Lemma snapshot_of_key (transactions : list Transaction) (key : string) :
  itemsOf key (getInventory transactions) =
  shown transactions key (get key (foldTransactions transactions)).
Proof.
  unfold getInventory, foldTransactions. apply itemsOf_flat_map.
  - apply NoDup_fold. constructor.
  - intros k Hin. apply displayName_key.
    apply keys_fold in Hin. destruct Hin as [[]|H]; exact H.
Qed.

(** ** normalize *)

Lemma normalize_lowered (q : Z) (label u : string) :
  trim (toLowerCase label) = u -> u <> EmptyString ->
  normalize q (Some label) =
  if includes ["kg"; "kilo"; "kilogramm"] u then mkNormalized (q * 1000) "g"
  else if includes ["g"; "gramm"; "gr"] u then mkNormalized q "g"
  else if includes ["l"; "liter"] u then mkNormalized (q * 1000) "ml"
  else if includes ["ml"; "milliliter"] u then mkNormalized q "ml"
  else mkNormalized q u.
Proof.
  intros Hu Hne. unfold normalize, truthy.
  destruct (String.eqb_spec label EmptyString) as [->|Hlabel]; simpl negb; cbv iota.
  - exfalso. apply Hne. rewrite <- Hu. reflexivity.
  - now rewrite Hu.
Qed.

(** C3 (as the code has it): without a unit label, [normalize] keeps the
    quantity and answers with the piece unit, which the code spells
    "stück". *)
Theorem C3_normalize_absent_unit :
  forall q : Z, normalize q None = mkNormalized q "stück".
Proof. reflexivity. Qed.

(** C3 as the specification words it fails: the unit returned for an absent
    label is not "count". *)
Lemma C3_counterexample : normalize 3 None <> mkNormalized 3 "count".
Proof. discriminate. Qed.

(** C4 (as the code has it): the alias sets are the German spellings.  A
    label that lower-cased and trimmed is "kg", "kilo" or "kilogramm" gives
    a thousand times the quantity in "g"; "g", "gramm" or "gr" gives the
    quantity in "g"; "l" or "liter" gives a thousand times the quantity in
    "ml"; "ml" or "milliliter" gives the quantity in "ml". *)
Theorem C4_normalize_aliases :
  forall (q : Z) (label : string),
    (In (trim (toLowerCase label)) ["kg"; "kilo"; "kilogramm"] ->
     normalize q (Some label) = mkNormalized (1000 * q) "g") /\
    (In (trim (toLowerCase label)) ["g"; "gramm"; "gr"] ->
     normalize q (Some label) = mkNormalized q "g") /\
    (In (trim (toLowerCase label)) ["l"; "liter"] ->
     normalize q (Some label) = mkNormalized (1000 * q) "ml") /\
    (In (trim (toLowerCase label)) ["ml"; "milliliter"] ->
     normalize q (Some label) = mkNormalized q "ml").
Proof.
  intros q label. rewrite (Z.mul_comm 1000 q).
  repeat split; intros H; simpl in H;
    repeat (destruct H as [H|H]; [symmetry in H|]); try contradiction;
    rewrite (normalize_lowered q label _ H) by discriminate; reflexivity.
Qed.

Lemma C4_witness :
  normalize 2 (Some " KG ") = mkNormalized 2000 "g" /\
  normalize 3 (Some "Gramm") = mkNormalized 3 "g" /\
  normalize 1 (Some "Liter") = mkNormalized 1000 "ml" /\
  normalize 250 (Some "ml") = mkNormalized 250 "ml".
Proof.
  split; [|split; [|split]].
  - apply (proj1 (C4_normalize_aliases 2 " KG ")). simpl. auto.
  - apply (proj1 (proj2 (C4_normalize_aliases 3 "Gramm"))). simpl. auto.
  - apply (proj1 (proj2 (proj2 (C4_normalize_aliases 1 "Liter")))). simpl. auto.
  - apply (proj2 (proj2 (proj2 (C4_normalize_aliases 250 "ml")))). simpl. auto.
Defined.

(** C4 as the specification words it fails: the English spellings
    "kilogram" and "gram" are in no alias set and pass through. *)
Lemma C4_counterexample :
  trim (toLowerCase "kilogram") = "kilogram" /\
  normalize 2 (Some "kilogram") = mkNormalized 2 "kilogram" /\
  normalize 2 (Some "kilogram") <> mkNormalized (1000 * 2) "g" /\
  trim (toLowerCase "gram") = "gram" /\
  normalize 3 (Some "gram") = mkNormalized 3 "gram" /\
  normalize 3 (Some "gram") <> mkNormalized 3 "g".
Proof.
  split; [reflexivity|]. split; [reflexivity|]. split; [discriminate|].
  split; [reflexivity|]. split; [reflexivity|discriminate].
Qed.

(** ** The fold, one transaction at a time *)

Lemma get_fold_snoc (transactions : list Transaction) (tx : Transaction) :
  get (keyOf tx) (foldTransactions (transactions ++ [tx])) =
  Some (update (currentOf (foldTransactions transactions) tx) tx).
Proof.
  rewrite fold_snoc, get_step. unfold concerns. now rewrite String.eqb_refl.
Qed.

(** C1 (what the code does): an Add met with a non-empty balance of another
    unit is summed into that balance all the same; the entry keeps its old
    unit and its quantity becomes the raw sum. *)
Theorem C1_add_unit_mismatch_is_summed :
  forall (pre : list Transaction) (tx : Transaction),
    tx_type tx = ADD ->
    quantity (currentOf (foldTransactions pre) tx) > 0 ->
    unit (currentOf (foldTransactions pre) tx) <> tx_unit tx ->
    get (keyOf tx) (foldTransactions (pre ++ [tx])) =
    Some (mkEntry (quantity (currentOf (foldTransactions pre) tx) + tx_quantity tx)
                  (unit (currentOf (foldTransactions pre) tx))).
Proof.
  intros pre tx Hadd Hpos Hunit. rewrite get_fold_snoc.
  unfold update. rewrite Hadd.
  destruct (Z.eqb_spec (quantity (currentOf (foldTransactions pre) tx)) 0); [lia|].
  now destruct (unitEq _ _).
Qed.

Lemma C1_witness :
  get "milk" (foldTransactions [Add 500 "milk" "ml"; Add 2 "Milk" "stück"]) =
  Some (mkEntry 502 (Some "ml")) /\
  getInventory [Add 500 "milk" "ml"; Add 2 "Milk" "stück"] =
  [mkItem "Milk" 502 (Some "ml")].
Proof.
  split; [|reflexivity].
  apply (C1_add_unit_mismatch_is_summed [Add 500 "milk" "ml"] (Add 2 "Milk" "stück")).
  - reflexivity.
  - reflexivity.
  - discriminate.
Defined.

(** C2: a Remove whose unit differs from the unit of the key's current entry
    changes nothing: the entry stays what it was (on first sight of the key,
    the freshly initialised entry), and when the key was already present
    the whole map is the one before.  In particular 1000 ml of milk stay
    1000 ml after the removal of 1 "count". *)
Theorem C2_remove_unit_mismatch_is_noop :
  forall (pre : list Transaction) (tx : Transaction),
    tx_type tx = REMOVE ->
    unit (currentOf (foldTransactions pre) tx) <> tx_unit tx ->
    get (keyOf tx) (foldTransactions (pre ++ [tx])) =
      Some (currentOf (foldTransactions pre) tx) /\
    (has (keyOf tx) (foldTransactions pre) = true ->
     foldTransactions (pre ++ [tx]) = foldTransactions pre) /\
    getInventory [Add 1000 "milk" "ml"; Remove 1 "milk" "count"] =
      [mkItem "milk" 1000 (Some "ml")].
Proof.
  intros pre tx Hrem Hunit. apply unitEq_false in Hunit.
  assert (Hupd : update (currentOf (foldTransactions pre) tx) tx =
                 currentOf (foldTransactions pre) tx).
  { unfold update. now rewrite Hrem, Hunit. }
  split; [|split].
  - now rewrite get_fold_snoc, Hupd.
  - intros Hhas. rewrite fold_snoc, step_eq, Hupd.
    unfold ensure. rewrite Hhas. apply set_unchanged.
    unfold currentOf, has in *.
    now destruct (get (keyOf tx) (foldTransactions pre)).
  - reflexivity.
Qed.

Lemma C2_witness :
  get "milk" (foldTransactions [Add 1000 "milk" "ml"; Remove 1 "milk" "count"]) =
  Some (mkEntry 1000 (Some "ml")).
Proof.
  apply (C2_remove_unit_mismatch_is_noop [Add 1000 "milk" "ml"] (Remove 1 "milk" "count")).
  - reflexivity.
  - discriminate.
Defined.

(** C5: an Add that meets a balance of 0, the initial one included, makes
    the transaction's unit the unit of the key and its quantity the
    balance.  In particular apples counted, used up and bought again by
    weight are shown as 2 g. *)
Theorem C5_add_at_zero_adopts_unit :
  forall (pre : list Transaction) (tx : Transaction),
    tx_type tx = ADD ->
    quantity (currentOf (foldTransactions pre) tx) = 0 ->
    get (keyOf tx) (foldTransactions (pre ++ [tx])) =
      Some (mkEntry (tx_quantity tx) (tx_unit tx)) /\
    getInventory [Add 5 "apple" "count"; Remove 5 "apple" "count"; Add 2 "apple" "g"] =
      [mkItem "apple" 2 (Some "g")].
Proof.
  intros pre tx Hadd Hzero. split; [|reflexivity].
  rewrite get_fold_snoc. unfold update. now rewrite Hadd, Hzero.
Qed.

Lemma C5_witness :
  get "apple"
    (foldTransactions
       [Add 5 "apple" "count"; Remove 5 "apple" "count"; Add 2 "apple" "g"]) =
  Some (mkEntry 2 (Some "g")).
Proof.
  apply (C5_add_at_zero_adopts_unit
           [Add 5 "apple" "count"; Remove 5 "apple" "count"] (Add 2 "apple" "g")).
  - reflexivity.
  - reflexivity.
Defined.

(** C6: for every ledger and every case-folded key, the snapshot holds one
    item for the key, with the final quantity and unit, when the fold ends
    with a quantity above 0 for it, and none otherwise.  The fold itself
    does not clamp: removing more than was added leaves the negative
    difference in the map.  In particular two eggs added and removed leave
    no egg in the snapshot. *)
Theorem C6_snapshot_has_the_positive_keys :
  forall (transactions : list Transaction) (key : string),
    itemsOf key (getInventory transactions) =
      match get key (foldTransactions transactions) with
      | Some e =>
          if quantity e >? 0
          then [mkItem (displayName transactions key) (quantity e) (unit e)]
          else []
      | None => []
      end /\
    (forall (a b : Z) (name u : string),
       foldTransactions [Add a name u; Remove b name u] =
       [(toLowerCase name, mkEntry (a - b) (Some u))]) /\
    getInventory [Add 2 "egg" "count"; Remove 2 "egg" "count"] = [].
Proof.
  intros transactions key. split; [|split].
  - rewrite snapshot_of_key. unfold shown, emit.
    now destruct (get key (foldTransactions transactions)).
  - intros a b name u. unfold foldTransactions, step, ensure, has; simpl.
    unfold keyOf; simpl. rewrite !String.eqb_refl; simpl.
    rewrite !String.eqb_refl; simpl.
    unfold update, initial; simpl.
    rewrite !String.eqb_refl; simpl. now rewrite String.eqb_refl.
  - reflexivity.
Qed.

(** ** A key whose transactions all carry one unit *)

Section OneUnit.

Variables (key u : string).
Hypothesis u_not_empty : u <> EmptyString.

Lemma unitOrDefault_nonempty : unitOrDefault (Some u) = u.
Proof.
  unfold unitOrDefault. now destruct (String.eqb_spec u EmptyString).
Qed.

Lemma update_same_unit (current : Entry) (tx : Transaction) :
  unit current = Some u -> tx_unit tx = Some u ->
  update current tx = mkEntry (quantity current + signed tx) (Some u).
Proof.
  intros Hc Ht. unfold update, signed. rewrite Hc, Ht. simpl.
  rewrite String.eqb_refl.
  destruct (tx_type tx); [now destruct (quantity current =? 0)|reflexivity].
Qed.

Lemma currentOf_same_unit (m : InventoryMap) (tx : Transaction) :
  (forall e, get key m = Some e -> unit e = Some u) ->
  keyOf tx = key -> tx_unit tx = Some u ->
  unit (currentOf m tx) = Some u.
Proof.
  intros Hm Hk Ht. unfold currentOf. rewrite Hk.
  destruct (get key m) as [e|]; auto.
  unfold initial. simpl. now rewrite Ht, unitOrDefault_nonempty.
Qed.

(** The closed form of the fold on such a key: the signed sum. *)
Lemma get_fold_same_unit (transactions : list Transaction) :
  carries key (Some u) transactions ->
  forall m,
    (forall e, get key m = Some e -> unit e = Some u) ->
    get key (fold_left step transactions m) =
    match get key m with
    | Some e => Some (mkEntry (quantity e + net key transactions) (Some u))
    | None =>
        if mentioned key transactions
        then Some (mkEntry (net key transactions) (Some u))
        else None
    end.
Proof.
  unfold net.
  induction 1 as [|tx rest Htx Hrest IH]; intros m Hm; simpl.
  - destruct (get key m) as [[q w]|] eqn:E; auto.
    specialize (Hm _ eq_refl). simpl in Hm. subst w. now rewrite Z.add_0_r.
  - destruct (concerns key tx) eqn:C.
    + specialize (Htx eq_refl).
      assert (Hk : keyOf tx = key) by now apply String.eqb_eq.
      pose proof (currentOf_same_unit m tx Hm Hk Htx) as Hcur.
      pose proof (update_same_unit _ tx Hcur Htx) as Hupd.
      rewrite IH.
      * rewrite get_step, C, Hupd. simpl. unfold currentOf. rewrite Hk.
        destruct (get key m) as [e|]; simpl; f_equal; f_equal; lia.
      * intros e. rewrite get_step, C, Hupd. now intros [= <-].
    + rewrite IH.
      * now rewrite get_step, C.
      * intros e. rewrite get_step, C. apply Hm.
Qed.

End OneUnit.

(** [carries] on a ledger written out. *)
Ltac carries_by_evaluation :=
  unfold carries; repeat (apply Forall_cons; [cbv; congruence|]); apply Forall_nil.

Lemma net_Permutation (key : string) (xs ys : list Transaction) :
  Permutation xs ys -> net key xs = net key ys.
Proof.
  unfold net. induction 1 as [|x xs ys _ IH|x y xs|xs ys zs _ IH1 _ IH2]; simpl.
  - reflexivity.
  - destruct (concerns key x); simpl; congruence.
  - destruct (concerns key x), (concerns key y); simpl; lia.
  - congruence.
Qed.

Lemma mentioned_Permutation (key : string) (xs ys : list Transaction) :
  Permutation xs ys -> mentioned key xs = mentioned key ys.
Proof.
  unfold mentioned. induction 1 as [|x xs ys _ IH|x y xs|xs ys zs _ IH1 _ IH2]; simpl.
  - reflexivity.
  - congruence.
  - now destruct (concerns key x), (concerns key y).
  - congruence.
Qed.

Lemma quantities_shown (xs ys : list Transaction) (key : string) (final : option Entry) :
  map item_quantity (shown xs key final) = map item_quantity (shown ys key final).
Proof.
  destruct final as [e|]; auto. unfold shown, emit.
  now destruct (quantity e >? 0).
Qed.

(** Balances stay within the magnitude of the key. *)
Lemma magnitude_app (key : string) (xs ys : list Transaction) :
  magnitude key (xs ++ ys) = magnitude key xs + magnitude key ys.
Proof.
  unfold magnitude. rewrite filter_app.
  induction (filter (concerns key) xs) as [|x rest IH]; simpl; auto.
  rewrite IH. lia.
Qed.

Lemma magnitude_nonneg (key : string) (xs : list Transaction) :
  0 <= magnitude key xs.
Proof.
  unfold magnitude.
  induction (filter (concerns key) xs) as [|x rest IH]; cbn [fold_right]; lia.
Qed.

Lemma net_within_magnitude (key : string) (xs : list Transaction) :
  Z.abs (net key xs) <= magnitude key xs.
Proof.
  unfold net, magnitude.
  induction (filter (concerns key) xs) as [|x rest IH]; cbn [fold_right]; [lia|].
  assert (Hx : Z.abs (signed x) = Z.abs (tx_quantity x)).
  { unfold signed. destruct (tx_type x); lia. }
  lia.
Qed.

Lemma magnitude_Permutation (key : string) (xs ys : list Transaction) :
  Permutation xs ys -> magnitude key xs = magnitude key ys.
Proof.
  unfold magnitude. induction 1 as [|x xs ys _ IH|x y xs|xs ys zs _ IH1 _ IH2]; simpl.
  - reflexivity.
  - destruct (concerns key x); simpl; congruence.
  - destruct (concerns key x), (concerns key y); simpl; lia.
  - congruence.
Qed.

Lemma balance_same_unit (key u : string) (transactions : list Transaction) :
  u <> EmptyString ->
  carries key (Some u) transactions ->
  balance transactions key = net key transactions.
Proof.
  intros Hu Hc. unfold balance, foldTransactions.
  rewrite (get_fold_same_unit key u Hu) by (auto; discriminate). simpl.
  destruct (mentioned key transactions) eqn:M; [reflexivity|].
  unfold net, mentioned in *. clear Hc.
  induction transactions as [|tx rest IH]; simpl in *; auto.
  apply orb_false_elim in M. destruct M as [-> M]. auto.
Qed.

(** C7 (as the code has it): when all transactions of a key carry the same
    non-empty unit and integer quantities whose absolute values add up to
    no more than [Number.MAX_SAFE_INTEGER], reordering the ledger changes
    neither the entry the fold ends with for the key nor the quantity the
    snapshot shows for it; every balance the key passes through on the way
    is an integer within that bound, which binary64 sums hold exactly. *)
Theorem C7_same_unit_order_independent :
  forall (key u : string) (transactions reordered : list Transaction),
    u <> EmptyString ->
    carries key (Some u) transactions ->
    magnitude key transactions <= MAX_SAFE_INTEGER ->
    Permutation transactions reordered ->
    get key (foldTransactions reordered) = get key (foldTransactions transactions) /\
    map item_quantity (itemsOf key (getInventory reordered)) =
    map item_quantity (itemsOf key (getInventory transactions)) /\
    (forall pre post : list Transaction,
        reordered = (pre ++ post)%list ->
        Z.abs (balance pre key) <= MAX_SAFE_INTEGER).
Proof.
  intros key u transactions reordered Hu Hc Hsafe Hp.
  assert (Hc' : carries key (Some u) reordered).
  { unfold carries in *. eapply Permutation_Forall; eauto. }
  assert (Hget : get key (foldTransactions reordered) =
                 get key (foldTransactions transactions)).
  { unfold foldTransactions.
    rewrite !(get_fold_same_unit key u Hu) by (auto; discriminate). simpl.
    now rewrite (net_Permutation key _ _ Hp), (mentioned_Permutation key _ _ Hp). }
  split; auto. split.
  - rewrite !snapshot_of_key, Hget. apply quantities_shown.
  - intros pre post ->.
    rewrite (balance_same_unit key u) by
      (auto; unfold carries in *; apply Forall_app in Hc'; tauto).
    pose proof (net_within_magnitude key pre) as Hnet.
    pose proof (magnitude_nonneg key post) as Hpost.
    rewrite (magnitude_Permutation key _ _ Hp), magnitude_app in Hsafe. lia.
Qed.

Lemma C7_witness :
  map item_quantity
    (itemsOf "milk"
       (getInventory [Remove 200 "Milk" "ml"; Add 1000 "milk" "ml"; Add 3 "egg" "count"])) =
  map item_quantity
    (itemsOf "milk"
       (getInventory [Add 3 "egg" "count"; Add 1000 "milk" "ml"; Remove 200 "Milk" "ml"])).
Proof.
  apply (C7_same_unit_order_independent "milk" "ml"
           [Add 3 "egg" "count"; Add 1000 "milk" "ml"; Remove 200 "Milk" "ml"]
           [Remove 200 "Milk" "ml"; Add 1000 "milk" "ml"; Add 3 "egg" "count"]).
  - discriminate.
  - carries_by_evaluation.
  - vm_compute. discriminate.
  - apply Permutation_rev.
Defined.

(** C7 as the specification words it fails, in two ways.  The empty string
    is a unit a stored transaction can carry ([normalize] answers with it
    for a blank label), the entry of a new key is initialised with "stück"
    in its place, and so a Remove that comes first is dropped while the same
    Remove after the Add is applied.  And the quantities are binary64
    numbers whose sums round: in one unit, 0.1 + 0.4 - 0.5 is 0 and the key
    is hidden, while 0.4 - 0.5 + 0.1 is above 0 and the key is shown; 2^53
    + 1 + 1 is shown as 2^53, and 1 + 1 + 2^53 as 2^53 + 2. *)
Lemma C7_counterexample :
  normalize 1 (Some " ") = mkNormalized 1 EmptyString /\
  carries "x" (Some EmptyString) [Remove 1 "x" EmptyString; Add 2 "x" EmptyString] /\
  Permutation [Remove 1 "x" EmptyString; Add 2 "x" EmptyString] [Add 2 "x" EmptyString; Remove 1 "x" EmptyString] /\
  map item_quantity (itemsOf "x" (getInventory [Remove 1 "x" EmptyString; Add 2 "x" EmptyString])) = [2] /\
  map item_quantity (itemsOf "x" (getInventory [Add 2 "x" EmptyString; Remove 1 "x" EmptyString])) = [1] /\
  Double.getInventory
    [Double.Add (Double.ofRatio 1 10) "x" "ml"; Double.Add (Double.ofRatio 4 10) "x" "ml";
     Double.Remove (Double.ofRatio 1 2) "x" "ml"] = [] /\
  map Double.item_name
    (Double.getInventory
       [Double.Add (Double.ofRatio 4 10) "x" "ml"; Double.Remove (Double.ofRatio 1 2) "x" "ml";
        Double.Add (Double.ofRatio 1 10) "x" "ml"]) = ["x"] /\
  map Double.item_quantity
    (Double.getInventory
       [Double.Add (Double.ofInteger 9007199254740992) "y" "g";
        Double.Add (Double.ofInteger 1) "y" "g"; Double.Add (Double.ofInteger 1) "y" "g"]) =
  [Double.ofInteger 9007199254740992] /\
  map Double.item_quantity
    (Double.getInventory
       [Double.Add (Double.ofInteger 1) "y" "g"; Double.Add (Double.ofInteger 1) "y" "g";
        Double.Add (Double.ofInteger 9007199254740992) "y" "g"]) =
  [Double.ofInteger 9007199254740994].
Proof.
  split; [reflexivity|]. split; [carries_by_evaluation|].
  split; [apply perm_swap|]. split; [reflexivity|]. split; [reflexivity|].
  split; [vm_compute; reflexivity|]. split; [vm_compute; reflexivity|].
  split; vm_compute; reflexivity.
Qed.

(** ** A key that starts with a Remove *)

Lemma fold_app (xs ys : list Transaction) :
  foldTransactions (xs ++ ys) = fold_left step ys (foldTransactions xs).
Proof. apply fold_left_app. Qed.

Lemma currentOf_first_sight (pre : list Transaction) (tx : Transaction) :
  mentioned (keyOf tx) pre = false ->
  currentOf (foldTransactions pre) tx = initial tx.
Proof.
  intros H. unfold currentOf, foldTransactions.
  now rewrite get_fold_unconcerned.
Qed.

(** C10 (as the code has it): when the first transaction of a key is a
    Remove of q > 0 in a non-empty unit u, the fold creates the entry with
    unit u and subtracts: the entry is (-q, u), the snapshot has no item for
    the key, and the next transaction of the key, an Add of a in unit u,
    leaves (a - q, u). *)
Theorem C10_leading_remove_goes_negative :
  forall (pre : list Transaction) (tx : Transaction) (u : string),
    tx_type tx = REMOVE ->
    tx_unit tx = Some u ->
    u <> EmptyString ->
    tx_quantity tx > 0 ->
    mentioned (keyOf tx) pre = false ->
    get (keyOf tx) (foldTransactions (pre ++ [tx])) =
      Some (mkEntry (- tx_quantity tx) (Some u)) /\
    itemsOf (keyOf tx) (getInventory (pre ++ [tx])) = [] /\
    (forall (mid : list Transaction) (add : Transaction),
       mentioned (keyOf tx) mid = false ->
       tx_type add = ADD -> keyOf add = keyOf tx -> tx_unit add = Some u ->
       get (keyOf tx) (foldTransactions ((pre ++ [tx]) ++ mid ++ [add])) =
       Some (mkEntry (tx_quantity add - tx_quantity tx) (Some u))).
Proof.
  intros pre tx u Hrem Hunit Hu Hq Hpre.
  assert (Hfirst : get (keyOf tx) (foldTransactions (pre ++ [tx])) =
                   Some (mkEntry (- tx_quantity tx) (Some u))).
  { rewrite get_fold_snoc, currentOf_first_sight by assumption.
    rewrite (update_same_unit u); auto.
    - unfold signed. now rewrite Hrem.
    - unfold initial. simpl. now rewrite Hunit, unitOrDefault_nonempty. }
  split; [exact Hfirst|split].
  - rewrite snapshot_of_key, Hfirst. unfold shown, emit. simpl.
    now destruct (Z.gtb_spec (- tx_quantity tx) 0); [lia|].
  - intros mid add Hmid Hadd Hkey Hau.
    rewrite app_assoc, <- Hkey, get_fold_snoc.
    assert (Hcur : currentOf (foldTransactions ((pre ++ [tx]) ++ mid)) add =
                   mkEntry (- tx_quantity tx) (Some u)).
    { unfold currentOf. rewrite Hkey, fold_app, get_fold_unconcerned by assumption.
      now rewrite Hfirst. }
    rewrite Hcur, (update_same_unit u); auto.
    unfold signed. rewrite Hadd. simpl. f_equal. f_equal. lia.
Qed.

Lemma C10_witness :
  get "flour" (foldTransactions [Add 3 "egg" "stück"; Remove 500 "Flour" "g"]) =
    Some (mkEntry (-500) (Some "g")) /\
  itemsOf "flour" (getInventory [Add 3 "egg" "stück"; Remove 500 "Flour" "g"]) = [].
Proof.
  pose proof (C10_leading_remove_goes_negative
                [Add 3 "egg" "stück"] (Remove 500 "Flour" "g") "g") as H.
  destruct H as [H1 [H2 _]].
  - reflexivity.
  - reflexivity.
  - discriminate.
  - reflexivity.
  - reflexivity.
  - split; [exact H1|exact H2].
Defined.

(** C10 as the specification words it fails: for the empty unit the entry
    is initialised with "stück", the Remove does not match it and is
    dropped, and the later Add starts from 0. *)
Lemma C10_counterexample :
  get "x" (foldTransactions [Remove 1 "x" EmptyString]) = Some (mkEntry 0 (Some "stück")) /\
  get "x" (foldTransactions [Remove 1 "x" EmptyString]) <> Some (mkEntry (- 1) (Some EmptyString)) /\
  get "x" (foldTransactions [Remove 1 "x" EmptyString; Add 2 "x" EmptyString]) = Some (mkEntry 2 (Some EmptyString)) /\
  getInventory [Remove 1 "x" EmptyString; Add 2 "x" EmptyString] = [mkItem "x" 2 (Some EmptyString)].
Proof.
  split; [reflexivity|]. split; [discriminate|]. split; reflexivity.
Qed.

(** ** Reading and appending *)

Import LocalFile Postgres.

Lemma getTransactions_returns (b : Backend) :
  exists transactions, getTransactions b = Returns transactions.
Proof.
  unfold getTransactions, readFileSync, existsSync.
  destruct (file b), (readFails b); simpl; eauto.
Qed.

(** C8 (as the code has it): a read does not report a backend error.  The
    file reads answer with a sequence whatever happens, the empty one when
    reading or parsing fails; the database read answers with the empty
    sequence for every failure of the query that its handler does not take
    for a missing table (no message, or a message without "does not exist"
    and a code other than 42P01).  An append whose write fails throws to
    its caller. *)
Theorem C8_read_errors_are_swallowed :
  forall (b : Backend) (db : Database) (e : IOError)
         (id name : string) (timestamp q : Z) (type : TxType) (label : option string),
    (exists transactions, getTransactions b = Returns transactions) /\
    (exists transactions, fst (getTransactionsLocal b) = Returns transactions) /\
    (readFails b = true ->
     getTransactions b = Returns [] /\ fst (getTransactionsLocal b) = Returns []) /\
    (file b = Malformed ->
     getTransactions b = Returns [] /\ fst (getTransactionsLocal b) = Returns []) /\
    (selectAll db = Throws e -> tableSeemsMissing db = false ->
     getTransactionsPG db = Returns []) /\
    (writeFails b = true ->
     fst (addTransaction id timestamp type name q label b) = Throws EIO).
Proof.
  intros b db e id name timestamp q type label.
  split; [apply getTransactions_returns|].
  split; [|split; [|split; [|split]]].
  - unfold getTransactionsLocal, ensureDataFile, writeFileSync, readFileSync.
    destruct (file b) eqn:F, (readFails b) eqn:R, (writeFails b) eqn:W;
      simpl; rewrite ?F, ?R; simpl; eauto.
  - intros R.
    unfold getTransactions, getTransactionsLocal, ensureDataFile, writeFileSync,
      readFileSync, existsSync.
    rewrite R. destruct (file b) eqn:F, (writeFails b) eqn:W;
      simpl; rewrite ?F, ?R; simpl; auto.
  - intros F.
    unfold getTransactions, getTransactionsLocal, ensureDataFile, readFileSync,
      existsSync.
    rewrite F. destruct (readFails b); simpl; rewrite ?F; auto.
  - intros S Hno. unfold getTransactionsPG. rewrite S. simpl. now rewrite Hno.
  - intros W. unfold addTransaction, writeFileSync.
    destruct (getTransactions_returns b) as [l ->]. now rewrite W.
Qed.

Lemma C8_witness :
  getTransactions (mkBackend (Json [Add 1 "egg" "stück"]) true true) = Returns [] /\
  getTransactionsPG
    (mkDatabase (Throws EIO) (Some "connect ECONNREFUSED") None (Returns tt)) =
  Returns [] /\
  fst (addTransaction "17" 17 ADD "egg" 2 None
         (mkBackend (Json [Add 1 "egg" "stück"]) true true)) = Throws EIO.
Proof.
  pose proof (C8_read_errors_are_swallowed
                (mkBackend (Json [Add 1 "egg" "stück"]) true true)
                (mkDatabase (Throws EIO) (Some "connect ECONNREFUSED") None (Returns tt))
                EIO "17" "egg" 17 2 ADD None) as H.
  destruct H as [_ [_ [Hread [_ [Hdb Hwrite]]]]].
  split; [|split].
  - apply Hread. reflexivity.
  - apply Hdb; reflexivity.
  - apply Hwrite. reflexivity.
Defined.

(** C8 as the specification words it fails: with a history on disk and a
    read that fails, the read returns the empty sequence instead of
    reporting the failure, and an append that meets the failing read goes on
    and overwrites the history with its own transaction alone; a database
    query that fails because the connection is refused is answered with the
    empty sequence as well. *)
Lemma C8_counterexample :
  readFileSync (mkBackend (Json [Add 1000 "milk" "ml"]) true false) = Throws EIO /\
  getTransactions (mkBackend (Json [Add 1000 "milk" "ml"]) true false) = Returns [] /\
  addTransaction "17" 17 ADD "egg" 2 None
    (mkBackend (Json [Add 1000 "milk" "ml"]) true false) =
  (Returns (mkTransaction "17" 17 ADD "egg" 2 (Some "stück")),
   mkBackend (Json [mkTransaction "17" 17 ADD "egg" 2 (Some "stück")]) true false) /\
  selectAll (mkDatabase (Throws EIO) (Some "connect ECONNREFUSED") None (Returns tt)) =
  Throws EIO /\
  getTransactionsPG
    (mkDatabase (Throws EIO) (Some "connect ECONNREFUSED") None (Returns tt)) =
  Returns [].
Proof.
  split; [reflexivity|]. split; [reflexivity|]. split; [reflexivity|].
  split; reflexivity.
Qed.

(** ** Appends that overlap *)

(** With one [INSERT] per append, every order of N appends leaves N more
    rows. *)
Lemma addTransactionPG_keeps_all (order table : list Transaction) :
  List.length (fold_left addTransactionPG order table) =
  (List.length table + List.length order)%nat.
Proof.
  revert table. induction order as [|t rest IH]; intros table; simpl.
  - lia.
  - rewrite IH. unfold addTransactionPG. rewrite length_app. simpl. lia.
Qed.

Import Blob.

Lemma run_app (first later : list nat) :
  forall blob calls,
    run (first ++ later) blob calls =
    let (blob', calls') := run first blob calls in run later blob' calls'.
Proof.
  induction first as [|i rest IH]; intros blob calls; simpl; auto.
  destruct (nth_error calls i) as [c|]; auto.
  now destruct (resume blob c).
Qed.

Lemma nth_error_middle (done : list Call) (c : Call) (rest : list Call) :
  nth_error (done ++ c :: rest) (List.length done) = Some c.
Proof. induction done; simpl; auto. Qed.

Lemma replace_middle (done : list Call) (c d : Call) (rest : list Call) :
  replace (List.length done) d (done ++ c :: rest) = (done ++ d :: rest)%list.
Proof. induction done; simpl; congruence. Qed.

(** Resuming, in turn, each of the calls that follow [done], from a blob
    that satisfies an invariant of the writes. *)
Lemma run_in_turn (before after : Transaction -> Call)
    (write : list Transaction -> Transaction -> list Transaction)
    (inv : list Transaction -> Prop) :
  (forall blob t, inv blob ->
                  resume blob (before t) = (write blob t, after t) /\
                  inv (write blob t)) ->
  forall (todo : list Transaction) (done : list Call) (blob : list Transaction),
    inv blob ->
    run (seq (List.length done) (List.length todo)) blob (done ++ map before todo) =
    (fold_left write todo blob, (done ++ map after todo)%list).
Proof.
  intros Hresume. induction todo as [|t rest IH]; intros done blob Hinv; simpl; auto.
  destruct (Hresume blob t Hinv) as [Hr Hinv'].
  rewrite nth_error_middle, Hr, replace_middle.
  specialize (IH (done ++ [after t])%list (write blob t) Hinv').
  rewrite length_app, Nat.add_1_r, <- !app_assoc in IH. exact IH.
Qed.

Lemma fold_left_keep (A B : Type) (xs : list B) (a : A) :
  fold_left (fun acc _ => acc) xs a = a.
Proof. induction xs; simpl; auto. Qed.

(** C9 (what the code does): when N blob appends have all read the stored
    array before any of them writes, each [put] overwrites the one before
    and the blob ends with one transaction, the last writer's, whatever N
    is; all N calls have resolved.  Two calls run one after the other store
    both transactions. *)
Theorem C9_overlapping_blob_appends_lose_updates :
  forall (ts : list Transaction) (t t1 t2 : Transaction),
    run (seq 0 (List.length (ts ++ [t])) ++ seq 0 (List.length (ts ++ [t]))) []
      (map addTransactionBlob (ts ++ [t])) =
      ([t], map (fun x => mkCall x Resolved) (ts ++ [t])) /\
    run [0; 1; 0; 1]%nat [] [addTransactionBlob t1; addTransactionBlob t2] =
      ([t2], [mkCall t1 Resolved; mkCall t2 Resolved]) /\
    run [0; 0; 1; 1]%nat [] [addTransactionBlob t1; addTransactionBlob t2] =
      ([t1; t2], [mkCall t1 Resolved; mkCall t2 Resolved]).
Proof.
  intros ts t t1 t2. split; [|split; reflexivity].
  rewrite run_app.
  rewrite (run_in_turn addTransactionBlob (fun x => mkCall x (AwaitPut []))
             (fun blob _ => blob) (fun blob => blob = []))
    with (done := []) by (try reflexivity; intros blob x ->; now split).
  rewrite fold_left_keep. simpl app.
  rewrite (run_in_turn (fun x => mkCall x (AwaitPut [])) (fun x => mkCall x Resolved)
             (fun _ x => [x]) (fun _ => True))
    with (done := []) by (try exact I; intros blob x _; now split).
  now rewrite fold_left_app.
Qed.

(** * Further properties of the code *)

(** ** The snapshot as a whole *)

Lemma In_get (key : string) (e : Entry) (m : InventoryMap) :
  NoDup (keys m) -> In (key, e) m -> get key m = Some e.
Proof.
  induction m as [|[k w] rest IH]; simpl; [tauto|].
  intros Hnd [H|H]; apply NoDup_cons_iff in Hnd; destruct Hnd as [Hk Hnd].
  - injection H as -> ->. now rewrite String.eqb_refl.
  - destruct (String.eqb_spec k key) as [->|_]; auto.
    exfalso. apply Hk. unfold keys. apply in_map_iff. now exists (key, e).
Qed.

Lemma folded_keys_are_mentioned (transactions : list Transaction) (k : string) :
  In k (keys (foldTransactions transactions)) -> mentioned k transactions = true.
Proof.
  intros H. apply keys_fold in H. destruct H as [[]|H]; exact H.
Qed.

Lemma snapshot_items_positive_key (transactions : list Transaction)
    (it : InventoryItem) :
  In it (getInventory transactions) ->
  mentioned (toLowerCase (item_name it)) transactions = true.
Proof.
  intros H. unfold getInventory in H.
  apply in_flat_map in H. destruct H as [[k e] [Hin Hit]].
  assert (Hk : mentioned k transactions = true).
  { apply folded_keys_are_mentioned. unfold keys. apply in_map_iff. now exists (k, e). }
  unfold emit in Hit. destruct (quantity e >? 0); [|contradiction].
  destruct Hit as [<-|[]]. simpl. now rewrite displayName_key.
Qed.

(** X1: every item of the snapshot has a quantity above 0, and its quantity
    and unit are the ones the fold ended with for the key its name folds
    to. *)
Theorem snapshot_items_are_positive :
  forall (transactions : list Transaction) (it : InventoryItem),
    In it (getInventory transactions) ->
    item_quantity it > 0 /\
    get (itemKey it) (foldTransactions transactions) =
    Some (mkEntry (item_quantity it) (item_unit it)).
Proof.
  intros transactions it H. unfold getInventory in H.
  apply in_flat_map in H. destruct H as [[k e] [Hin Hit]].
  unfold emit in Hit. destruct (Z.gtb_spec (quantity e) 0) as [Hpos|]; [|contradiction].
  destruct Hit as [<-|[]]. unfold itemKey. simpl. split; [lia|].
  rewrite displayName_key.
  - rewrite (In_get k e); auto; [now destruct e|].
    apply NoDup_fold. constructor.
  - apply folded_keys_are_mentioned. unfold keys. apply in_map_iff. now exists (k, e).
Qed.

Lemma snapshot_items_are_positive_witness :
  item_quantity (mkItem "Milk" 800 (Some "ml")) > 0 /\
  get "milk" (foldTransactions [Add 1000 "milk" "ml"; Remove 200 "Milk" "ml"]) =
  Some (mkEntry 800 (Some "ml")).
Proof.
  apply (snapshot_items_are_positive
           [Add 1000 "milk" "ml"; Remove 200 "Milk" "ml"]
           (mkItem "Milk" 800 (Some "ml"))).
  simpl. auto.
Defined.

(** The keys of the map, in the order the map iterates them. *)
Lemma keys_foldTransactions (transactions : list Transaction) :
  keys (foldTransactions transactions) =
  rev (nodup string_dec (rev (map keyOf transactions))).
Proof.
  induction transactions as [|tx pre IH] using rev_ind; [reflexivity|].
  rewrite fold_snoc, keys_step, map_app, rev_app_distr. simpl.
  destruct (in_dec string_dec (keyOf tx) (rev (map keyOf pre))) as [Hin|Hout].
  - rewrite <- IH.
    replace (has (keyOf tx) (foldTransactions pre)) with true; auto.
    symmetry. apply has_In. rewrite IH, <- in_rev. now apply nodup_In.
  - simpl. rewrite <- IH.
    replace (has (keyOf tx) (foldTransactions pre)) with false; auto.
    symmetry. apply has_false_notin. rewrite IH, <- in_rev.
    now rewrite nodup_In.
Qed.

Lemma keys_of_flat_map (transactions : list Transaction) :
  forall m : InventoryMap,
    (forall k, In k (keys m) -> toLowerCase (displayName transactions k) = k) ->
    map itemKey (flat_map (emit transactions) m) =
    map fst (filter (fun kv => quantity (snd kv) >? 0) m).
Proof.
  induction m as [|[k w] rest IH]; intros Hk; auto.
  cbn [flat_map filter snd]. rewrite map_app, IH by (intros; apply Hk; simpl; auto).
  unfold emit. destruct (quantity w >? 0); auto.
  simpl. unfold itemKey at 1. simpl. rewrite Hk; simpl; auto.
Qed.

Lemma filter_by_get (m : InventoryMap) :
  NoDup (keys m) ->
  map fst (filter (fun kv => quantity (snd kv) >? 0) m) =
  filter (fun k => match get k m with Some e => quantity e >? 0 | None => false end)
         (keys m).
Proof.
  unfold keys.
  induction m as [|[k w] rest IH]; intros Hnd; auto.
  simpl in Hnd. apply NoDup_cons_iff in Hnd. destruct Hnd as [Hk Hnd].
  cbn [filter map fst snd get]. rewrite String.eqb_refl.
  assert (Hrest : filter (fun k0 => match (if String.eqb k k0 then Some w else get k0 rest)
                                      with Some e => quantity e >? 0 | None => false end)
                         (map fst rest) =
                  filter (fun k0 => match get k0 rest
                                      with Some e => quantity e >? 0 | None => false end)
                         (map fst rest)).
  { apply filter_ext_in. intros k0 Hin.
    destruct (String.eqb_spec k k0) as [->|_]; auto. contradiction. }
  rewrite Hrest, <- (IH Hnd). now destruct (quantity w >? 0).
Qed.

(** X2: the snapshot lists the keys whose balance is above 0, each once,
    in the order in which the keys first occur in the ledger. *)
Theorem snapshot_order_is_first_appearance :
  forall transactions : list Transaction,
    map itemKey (getInventory transactions) =
    filter (fun key => balance transactions key >? 0)
           (rev (nodup string_dec (rev (map keyOf transactions)))).
Proof.
  intros transactions. unfold getInventory.
  rewrite keys_of_flat_map.
  - rewrite filter_by_get by (apply NoDup_fold; constructor).
    rewrite keys_foldTransactions. apply filter_ext. intros key.
    unfold balance. now destruct (get key (foldTransactions transactions)).
  - intros k Hin. apply displayName_key. now apply folded_keys_are_mentioned.
Qed.

(** ** The name an item is shown under *)

Lemma find_app_none (A : Type) (p : A -> bool) (xs ys : list A) :
  find p xs = None -> find p (xs ++ ys) = find p ys.
Proof.
  induction xs as [|x xs IH]; simpl; auto.
  destruct (p x); [discriminate|auto].
Qed.

Lemma find_unmentioned (key : string) (transactions : list Transaction) :
  mentioned key transactions = false ->
  find (fun t => String.eqb (keyOf t) key) (rev transactions) = None.
Proof.
  intros H. destruct (find _ (rev transactions)) as [t|] eqn:F; auto.
  apply find_some in F. destruct F as [Hin Ht]. apply in_rev in Hin.
  assert (mentioned key transactions = true); [|congruence].
  apply existsb_exists. now exists t.
Qed.

Lemma displayName_last (pre post : list Transaction) (tx : Transaction) :
  mentioned (keyOf tx) post = false ->
  displayName (pre ++ tx :: post) (keyOf tx) = tx_name tx.
Proof.
  intros H. unfold displayName.
  rewrite rev_app_distr. simpl. rewrite <- !app_assoc.
  rewrite find_app_none by now apply find_unmentioned.
  simpl. now rewrite String.eqb_refl.
Qed.

(** X3: an item is shown under the spelling of the last transaction of its
    key: when no transaction after [tx] has the key of [tx], every item of
    that key carries the name of [tx]. *)
Theorem snapshot_name_is_last_spelling :
  forall (pre post : list Transaction) (tx : Transaction) (it : InventoryItem),
    mentioned (keyOf tx) post = false ->
    In it (getInventory (pre ++ tx :: post)) ->
    itemKey it = keyOf tx ->
    item_name it = tx_name tx.
Proof.
  intros pre post tx it Hpost Hin Hkey.
  assert (Hit : In it (itemsOf (keyOf tx) (getInventory (pre ++ tx :: post)))).
  { unfold itemsOf. apply filter_In. split; auto.
    unfold itemKey in Hkey. rewrite Hkey. apply String.eqb_refl. }
  rewrite snapshot_of_key in Hit. unfold shown, emit in Hit.
  destruct (get _ _) as [e|]; [|contradiction].
  destruct (quantity e >? 0); [|contradiction].
  destruct Hit as [<-|[]]. simpl. now apply displayName_last.
Qed.

Lemma snapshot_name_is_last_spelling_witness :
  item_name (mkItem "MILK" 1200 (Some "ml")) = "MILK".
Proof.
  apply (snapshot_name_is_last_spelling
           [Add 1000 "milk" "ml"] [Add 3 "egg" "stück"]
           (Add 200 "MILK" "ml") (mkItem "MILK" 1200 (Some "ml"))).
  - reflexivity.
  - simpl. auto.
  - reflexivity.
Defined.

(** ** Keys do not interfere *)

Lemma get_fold_agree (key : string) (transactions : list Transaction) :
  forall m1 m2,
    get key m1 = get key m2 ->
    get key (fold_left step transactions m1) =
    get key (fold_left step transactions m2).
Proof.
  induction transactions as [|tx rest IH]; intros m1 m2 H; simpl; auto.
  apply IH. rewrite !get_step.
  destruct (concerns key tx) eqn:C; auto.
  unfold currentOf. apply String.eqb_eq in C. now rewrite C, H.
Qed.

Lemma get_fold_filter (key : string) (transactions : list Transaction) :
  forall m,
    get key (fold_left step (filter (concerns key) transactions) m) =
    get key (fold_left step transactions m).
Proof.
  induction transactions as [|tx rest IH]; intros m; simpl; auto.
  destruct (concerns key tx) eqn:C; simpl; auto.
  rewrite IH. apply get_fold_agree. now rewrite get_step, C.
Qed.

Lemma find_filter (A : Type) (p : A -> bool) (xs : list A) :
  find p (filter p xs) = find p xs.
Proof.
  induction xs as [|x xs IH]; simpl; auto.
  destruct (p x) eqn:E; simpl; now rewrite ?E.
Qed.

Lemma displayName_filter (key : string) (transactions : list Transaction) :
  displayName (filter (concerns key) transactions) key = displayName transactions key.
Proof.
  unfold displayName.
  rewrite <- filter_rev. unfold concerns. now rewrite find_filter.
Qed.

Lemma mentioned_filter (key k : string) (transactions : list Transaction) :
  mentioned k (filter (concerns key) transactions) = true -> k = key.
Proof.
  unfold mentioned. intros H. apply existsb_exists in H.
  destruct H as [t [Hin Hk]]. apply filter_In in Hin. destruct Hin as [_ Hkey].
  unfold concerns in *. apply String.eqb_eq in Hk, Hkey. congruence.
Qed.

(** X4: what the snapshot shows for a key is the snapshot of the key's own
    transactions: the transactions of other keys change neither the entry
    the fold ends with for it nor its item. *)
Theorem snapshot_of_key_ignores_other_keys :
  forall (transactions : list Transaction) (key : string),
    get key (foldTransactions transactions) =
    get key (foldTransactions (filter (concerns key) transactions)) /\
    itemsOf key (getInventory transactions) =
    getInventory (filter (concerns key) transactions).
Proof.
  intros transactions key.
  assert (Hget : get key (foldTransactions transactions) =
                 get key (foldTransactions (filter (concerns key) transactions))).
  { unfold foldTransactions. now rewrite get_fold_filter. }
  split; auto.
  assert (Hall : itemsOf key (getInventory (filter (concerns key) transactions)) =
                 getInventory (filter (concerns key) transactions)).
  { unfold itemsOf. apply forallb_filter_id. apply forallb_forall. intros it Hin.
    apply snapshot_items_positive_key in Hin. apply String.eqb_eq.
    now apply mentioned_filter in Hin. }
  rewrite <- Hall, !snapshot_of_key, <- Hget.
  unfold shown, emit. now rewrite displayName_filter.
Qed.

(** ** Keys of one unit: the balance is the signed sum *)

Lemma mentioned_false_net (key : string) (transactions : list Transaction) :
  mentioned key transactions = false -> net key transactions = 0.
Proof.
  unfold net, mentioned.
  induction transactions as [|tx rest IH]; simpl; auto.
  intros M. apply orb_false_elim in M. destruct M as [-> M]. auto.
Qed.

(** What [shown] makes of the closed form of a key of one unit. *)
Lemma shown_net (transactions : list Transaction) (key u : string) :
  shown transactions key
    (if mentioned key transactions
     then Some (mkEntry (net key transactions) (Some u)) else None) =
  if net key transactions >? 0
  then [mkItem (displayName transactions key) (net key transactions) (Some u)]
  else [].
Proof.
  destruct (mentioned key transactions) eqn:M; [reflexivity|].
  now rewrite mentioned_false_net.
Qed.

Lemma itemsOf_same_unit (key u : string) (transactions : list Transaction) :
  u <> EmptyString ->
  carries key (Some u) transactions ->
  itemsOf key (getInventory transactions) =
  if net key transactions >? 0
  then [mkItem (displayName transactions key) (net key transactions) (Some u)]
  else [].
Proof.
  intros Hu Hc. rewrite snapshot_of_key. unfold foldTransactions.
  rewrite (get_fold_same_unit key u Hu) by (auto; discriminate).
  apply shown_net.
Qed.

(** X5: when all transactions of a key carry the same non-empty unit and
    integer quantities whose absolute values add up to no more than
    [Number.MAX_SAFE_INTEGER] (so that every sum is exact), the snapshot
    shows for the key the sum of its Adds minus the sum of its Removes, in
    that unit, if the sum is above 0, and nothing otherwise. *)
Theorem same_unit_snapshot_is_net :
  forall (key u : string) (transactions : list Transaction),
    u <> EmptyString ->
    carries key (Some u) transactions ->
    magnitude key transactions <= MAX_SAFE_INTEGER ->
    itemsOf key (getInventory transactions) =
    if net key transactions >? 0
    then [mkItem (displayName transactions key) (net key transactions) (Some u)]
    else [].
Proof.
  intros key u transactions Hu Hc _. now apply itemsOf_same_unit.
Qed.

Lemma same_unit_snapshot_is_net_witness :
  itemsOf "milk" (getInventory [Add 1000 "milk" "ml"; Add 3 "egg" "stück"; Add 500 "Milk" "ml"]) =
  [mkItem "Milk" 1500 (Some "ml")].
Proof.
  apply (same_unit_snapshot_is_net "milk" "ml"
           [Add 1000 "milk" "ml"; Add 3 "egg" "stück"; Add 500 "Milk" "ml"]).
  - discriminate.
  - carries_by_evaluation.
  - vm_compute. discriminate.
Defined.

(** ** The browser's copy *)

(** Facts about any fold whose step initialises a key like [step] does and
    then applies some update to the current entry. *)
Section FoldOf.

Variable upd : Entry -> Transaction -> Entry.
Variable stp : InventoryMap -> Transaction -> InventoryMap.
Hypothesis stp_eq :
  forall m tx, stp m tx = set (keyOf tx) (upd (currentOf m tx) tx) (ensure m tx).

Lemma get_stp (key : string) (m : InventoryMap) (tx : Transaction) :
  get key (stp m tx) =
  if concerns key tx then Some (upd (currentOf m tx) tx) else get key m.
Proof.
  rewrite stp_eq. unfold concerns.
  destruct (String.eqb_spec (keyOf tx) key) as [<-|Hne].
  - apply get_set_same.
  - rewrite get_set_other by congruence.
    unfold ensure. destruct (has (keyOf tx) m); auto.
    apply get_set_other. congruence.
Qed.

Lemma keys_stp (m : InventoryMap) (tx : Transaction) :
  keys (stp m tx) =
  if has (keyOf tx) m then keys m else (keys m ++ [keyOf tx])%list.
Proof.
  rewrite stp_eq, set_present by apply has_ensure. apply keys_ensure.
Qed.

Lemma NoDup_fold_stp (transactions : list Transaction) :
  forall m, NoDup (keys m) -> NoDup (keys (fold_left stp transactions m)).
Proof.
  induction transactions as [|tx rest IH]; simpl; auto.
  intros m Hm. apply IH. rewrite keys_stp.
  destruct (has (keyOf tx) m) eqn:E; auto.
  apply has_false_notin in E.
  apply NoDup_rev in Hm. rewrite <- (rev_involutive (_ ++ _)).
  apply NoDup_rev. rewrite rev_app_distr. simpl.
  constructor; auto. now rewrite <- in_rev.
Qed.

Lemma keys_fold_stp (key : string) (transactions : list Transaction) :
  forall m, In key (keys (fold_left stp transactions m)) ->
            In key (keys m) \/ mentioned key transactions = true.
Proof.
  induction transactions as [|tx rest IH]; simpl; intros m H; auto.
  apply IH in H. destruct H as [H|H].
  - rewrite keys_stp in H. destruct (has (keyOf tx) m); auto.
    apply in_app_or in H. destruct H as [H|[H|[]]]; auto.
    right. unfold concerns at 1. rewrite H, String.eqb_refl. reflexivity.
  - right. rewrite H. apply orb_true_r.
Qed.

Lemma snapshot_of_key_stp (transactions : list Transaction) (key : string) :
  itemsOf key (flat_map (emit transactions) (fold_left stp transactions [])) =
  shown transactions key (get key (fold_left stp transactions [])).
Proof.
  apply itemsOf_flat_map.
  - apply NoDup_fold_stp. constructor.
  - intros k Hin. apply displayName_key.
    apply keys_fold_stp in Hin. destruct Hin as [[]|H]; exact H.
Qed.

(** When the update always moves the quantity by the signed quantity of the
    transaction, the fold ends with the signed sum. *)
Hypothesis upd_quantity :
  forall current tx, quantity (upd current tx) = quantity current + signed tx.

Lemma quantity_fold_stp (key : string) (transactions : list Transaction) :
  forall m,
    option_map quantity (get key (fold_left stp transactions m)) =
    match get key m with
    | Some e => Some (quantity e + net key transactions)
    | None =>
        if mentioned key transactions then Some (net key transactions) else None
    end.
Proof.
  unfold net.
  induction transactions as [|tx rest IH]; intros m; simpl.
  - destruct (get key m); simpl; auto. now rewrite Z.add_0_r.
  - rewrite IH, get_stp. destruct (concerns key tx) eqn:C; simpl; auto.
    rewrite upd_quantity. unfold currentOf.
    apply String.eqb_eq in C. rewrite C.
    destruct (get key m); simpl; f_equal; lia.
Qed.

End FoldOf.

Lemma Client_step_eq (m : InventoryMap) (tx : Transaction) :
  Client.step m tx =
  set (keyOf tx) (Client.update (currentOf m tx) tx) (ensure m tx).
Proof. unfold Client.step. now rewrite get_ensure. Qed.

Lemma Client_update_quantity (current : Entry) (tx : Transaction) :
  quantity (Client.update current tx) = quantity current + signed tx.
Proof.
  unfold Client.update, signed.
  destruct (tx_type tx); [destruct (quantity current =? 0)|]; simpl; lia.
Qed.

(** X6: for a key whose quantities are integers with absolute values
    adding up to no more than [Number.MAX_SAFE_INTEGER] (so that every sum
    is exact), the browser's [calculateInventory] shows the sum of the
    quantities added minus the sum of the quantities removed, whatever
    units the transactions carry, if that sum is above 0, and nothing
    otherwise. *)
Theorem calculateInventory_shows_the_signed_sum :
  forall (transactions : list Transaction) (key : string),
    magnitude key transactions <= MAX_SAFE_INTEGER ->
    map item_quantity (itemsOf key (Client.calculateInventory transactions)) =
    if net key transactions >? 0 then [net key transactions] else [].
Proof.
  intros transactions key _. unfold Client.calculateInventory.
  rewrite (snapshot_of_key_stp Client.update Client.step Client_step_eq).
  pose proof (quantity_fold_stp Client.update Client.step Client_step_eq
                Client_update_quantity key transactions []) as H.
  simpl in H.
  destruct (get key (fold_left Client.step transactions [])) as [e|];
    destruct (mentioned key transactions) eqn:M; simpl in H; try discriminate.
  - injection H as H. unfold shown, emit. rewrite H.
    now destruct (net key transactions >? 0).
  - now rewrite mentioned_false_net.
Qed.

Lemma calculateInventory_shows_the_signed_sum_witness :
  map item_quantity
    (itemsOf "milk"
       (Client.calculateInventory [Add 1000 "milk" "ml"; Remove 1 "Milk" "stück"])) =
  [999].
Proof.
  apply (calculateInventory_shows_the_signed_sum
           [Add 1000 "milk" "ml"; Remove 1 "Milk" "stück"] "milk").
  vm_compute. discriminate.
Defined.

(** The closed form of a fold on a key of one non-empty unit, for an update
    that keeps that unit. *)
Section FoldOfOneUnit.

Variable upd : Entry -> Transaction -> Entry.
Variable stp : InventoryMap -> Transaction -> InventoryMap.
Hypothesis stp_eq :
  forall m tx, stp m tx = set (keyOf tx) (upd (currentOf m tx) tx) (ensure m tx).
Variables (key u : string).
Hypothesis u_not_empty : u <> EmptyString.
Hypothesis upd_same_unit :
  forall current tx,
    unit current = Some u -> tx_unit tx = Some u ->
    upd current tx = mkEntry (quantity current + signed tx) (Some u).

Lemma get_fold_same_unit_stp (transactions : list Transaction) :
  carries key (Some u) transactions ->
  forall m,
    (forall e, get key m = Some e -> unit e = Some u) ->
    get key (fold_left stp transactions m) =
    match get key m with
    | Some e => Some (mkEntry (quantity e + net key transactions) (Some u))
    | None =>
        if mentioned key transactions
        then Some (mkEntry (net key transactions) (Some u))
        else None
    end.
Proof.
  unfold net.
  induction 1 as [|tx rest Htx Hrest IH]; intros m Hm; simpl.
  - destruct (get key m) as [[q w]|] eqn:E; auto.
    specialize (Hm _ eq_refl). simpl in Hm. subst w. now rewrite Z.add_0_r.
  - destruct (concerns key tx) eqn:C.
    + specialize (Htx eq_refl).
      assert (Hk : keyOf tx = key) by now apply String.eqb_eq.
      pose proof (currentOf_same_unit key u u_not_empty m tx Hm Hk Htx) as Hcur.
      pose proof (upd_same_unit _ tx Hcur Htx) as Hupd.
      rewrite IH.
      * rewrite (get_stp upd stp stp_eq), C, Hupd. simpl. unfold currentOf. rewrite Hk.
        destruct (get key m) as [e|]; simpl; f_equal; f_equal; lia.
      * intros e. rewrite (get_stp upd stp stp_eq), C, Hupd. now intros [= <-].
    + rewrite IH.
      * now rewrite (get_stp upd stp stp_eq), C.
      * intros e. rewrite (get_stp upd stp stp_eq), C. apply Hm.
Qed.

End FoldOfOneUnit.

Lemma Client_update_same_unit (u : string) (current : Entry) (tx : Transaction) :
  u <> EmptyString ->
  unit current = Some u -> tx_unit tx = Some u ->
  Client.update current tx = mkEntry (quantity current + signed tx) (Some u).
Proof.
  intros Hu Hc Ht. unfold Client.update, signed. rewrite Hc, Ht.
  rewrite (unitOrDefault_nonempty u Hu).
  destruct (tx_type tx); [now destruct (quantity current =? 0)|reflexivity].
Qed.

(** X7: for a key whose transactions all carry the same non-empty unit, the
    browser's [calculateInventory] and the server's [getInventory] show the
    same item. *)
Theorem calculateInventory_agrees_on_one_unit :
  forall (key u : string) (transactions : list Transaction),
    u <> EmptyString ->
    carries key (Some u) transactions ->
    itemsOf key (Client.calculateInventory transactions) =
    itemsOf key (getInventory transactions).
Proof.
  intros key u transactions Hu Hc.
  rewrite (itemsOf_same_unit key u) by assumption.
  unfold Client.calculateInventory.
  rewrite (snapshot_of_key_stp Client.update Client.step Client_step_eq).
  rewrite (get_fold_same_unit_stp Client.update Client.step Client_step_eq key u Hu)
    by (auto using Client_update_same_unit; discriminate).
  apply shown_net.
Qed.

Lemma calculateInventory_agrees_on_one_unit_witness :
  itemsOf "milk"
    (Client.calculateInventory [Add 1000 "milk" "ml"; Remove 200 "Milk" "ml"]) =
  itemsOf "milk" (getInventory [Add 1000 "milk" "ml"; Remove 200 "Milk" "ml"]).
Proof.
  apply (calculateInventory_agrees_on_one_unit "milk" "ml"
           [Add 1000 "milk" "ml"; Remove 200 "Milk" "ml"]).
  - discriminate.
  - carries_by_evaluation.
Defined.

(** ** normalize: what it returns *)

(** X8: the unit [normalize] returns is never one of the aliases it
    rewrites ("kg", "kilo", "kilogramm", "gramm", "gr", "l", "liter",
    "milliliter"): a stored unit is "g", "ml", "stück" or a label that
    matches no alias. *)
Theorem normalize_unit_is_no_alias :
  forall (q : Z) (label : option string),
    includes ["kg"; "kilo"; "kilogramm"; "gramm"; "gr"; "l"; "liter"; "milliliter"]
             (n_unit (normalize q label)) = false.
Proof.
  intros q [label|]; [|reflexivity].
  unfold normalize. destruct (truthy (Some label)); [|reflexivity]. simpl negb. cbv iota.
  set (u := trim (toLowerCase label)).
  destruct (includes ["kg"; "kilo"; "kilogramm"] u) eqn:E1; [reflexivity|].
  destruct (includes ["g"; "gramm"; "gr"] u) eqn:E2; [reflexivity|].
  destruct (includes ["l"; "liter"] u) eqn:E3; [reflexivity|].
  destruct (includes ["ml"; "milliliter"] u) eqn:E4; [reflexivity|].
  unfold includes in *. simpl in *.
  repeat match goal with
         | H : (_ || _)%bool = false |- _ =>
             apply orb_false_elim in H; destruct H
         end.
  repeat match goal with
         | H : String.eqb u _ = false |- _ => rewrite H; clear H
         end.
  reflexivity.
Qed.

Lemma normalize_quantity_positive (q : Z) (label : option string) :
  q > 0 -> n_quantity (normalize q label) > 0.
Proof.
  intros Hq. destruct label as [label|]; [|exact Hq].
  unfold normalize. destruct (negb (truthy (Some label))); [exact Hq|].
  repeat match goal with
         | |- context [if ?c then _ else _] => destruct c
         end; simpl; lia.
Qed.

(** ** The file backend: appending and reading back *)

(** X9: on a backend whose reads and writes succeed, [addTransaction]
    returns the transaction it stored, with the normalised quantity and
    unit, and the next [getTransactions] returns what it returned before
    followed by that transaction. *)
Theorem addTransaction_then_getTransactions :
  forall (id name : string) (timestamp q : Z) (type : TxType)
         (label : option string) (b : Backend) (old : list Transaction),
    readFails b = false ->
    writeFails b = false ->
    getTransactions b = Returns old ->
    exists b',
      addTransaction id timestamp type name q label b =
      (Returns (mkTransaction id timestamp type name
                  (n_quantity (normalize q label))
                  (Some (n_unit (normalize q label)))), b') /\
      getTransactions b' =
      Returns (old ++ [mkTransaction id timestamp type name
                         (n_quantity (normalize q label))
                         (Some (n_unit (normalize q label)))])%list.
Proof.
  intros id name timestamp q type label b old R W Hold.
  unfold addTransaction, writeFileSync. rewrite Hold, W.
  eexists. split; [reflexivity|].
  unfold getTransactions, existsSync, readFileSync. simpl. now rewrite R.
Qed.

Lemma addTransaction_then_getTransactions_witness :
  exists b',
    addTransaction "17" 17 ADD "Mehl" 2 (Some "kg")
      (mkBackend (Json [Add 3 "egg" "stück"]) false false) =
    (Returns (mkTransaction "17" 17 ADD "Mehl" 2000 (Some "g")), b') /\
    getTransactions b' =
    Returns [Add 3 "egg" "stück"; mkTransaction "17" 17 ADD "Mehl" 2000 (Some "g")].
Proof.
  apply (addTransaction_then_getTransactions "17" "Mehl" 17 2 ADD (Some "kg")
           (mkBackend (Json [Add 3 "egg" "stück"]) false false)
           [Add 3 "egg" "stück"]); reflexivity.
Defined.

(** X10: on a backend whose reads and writes succeed, adding a quantity
    above 0 of an item the ledger has no transaction of makes the item
    appear in the inventory, under the name given, with the normalised
    quantity and unit. *)
Theorem added_item_appears_in_inventory :
  forall (id name : string) (timestamp q : Z) (label : option string)
         (b : Backend) (old : list Transaction),
    readFails b = false ->
    writeFails b = false ->
    getTransactions b = Returns old ->
    mentioned (toLowerCase name) old = false ->
    q > 0 ->
    exists ledger,
      getTransactions (snd (addTransaction id timestamp ADD name q label b)) =
      Returns ledger /\
      itemsOf (toLowerCase name) (getInventory ledger) =
      [mkItem name (n_quantity (normalize q label))
              (Some (n_unit (normalize q label)))].
Proof.
  intros id name timestamp q label b old R W Hold Hfresh Hq.
  set (new := mkTransaction id timestamp ADD name
                (n_quantity (normalize q label)) (Some (n_unit (normalize q label)))).
  exists (old ++ [new])%list. split.
  - unfold addTransaction, writeFileSync. rewrite Hold, W. simpl.
    unfold getTransactions, existsSync, readFileSync. simpl. now rewrite R.
  - change (toLowerCase name) with (keyOf new) in *.
    rewrite snapshot_of_key, get_fold_snoc, currentOf_first_sight by assumption.
    unfold shown, emit, update, initial. simpl.
    pose proof (normalize_quantity_positive q label Hq) as Hpos.
    destruct (Z.gtb_spec (n_quantity (normalize q label)) 0); [|lia].
    now rewrite (displayName_last old [] new).
Qed.

Lemma added_item_appears_in_inventory_witness :
  exists ledger,
    getTransactions
      (snd (addTransaction "17" 17 ADD "Mehl" 2 (Some "kg")
              (mkBackend (Json [Add 3 "egg" "stück"]) false false))) =
    Returns ledger /\
    itemsOf "mehl" (getInventory ledger) = [mkItem "Mehl" 2000 (Some "g")].
Proof.
  apply (added_item_appears_in_inventory "17" "Mehl" 17 2 (Some "kg")
           (mkBackend (Json [Add 3 "egg" "stück"]) false false)
           [Add 3 "egg" "stück"]); reflexivity.
Defined.



(** ** The database read *)

Example tableSeemsMissing_relation :
  tableSeemsMissing
    (mkDatabase (Throws EIO) (Some "relation transactions does not exist")
                (Some "42P01") (Returns tt)) = true.
Proof. reflexivity. Qed.

Example tableSeemsMissing_database :
  tableSeemsMissing
    (mkDatabase (Throws EIO) (Some "database verceldb does not exist")
                (Some "3D000") (Returns tt)) = true.
Proof. reflexivity. Qed.

Example tableSeemsMissing_no_message :
  tableSeemsMissing (mkDatabase (Throws EIO) (Some EmptyString) (Some "42P01") (Returns tt)) =
  false.
Proof. reflexivity. Qed.

Example tableSeemsMissing_refused :
  tableSeemsMissing
    (mkDatabase (Throws EIO) (Some "connect ECONNREFUSED") None (Returns tt)) = false.
Proof. reflexivity. Qed.

(** X12: [getTransactionsPG] throws in one situation only: the query fails
    with an error that has a non-empty message and either "does not exist"
    in that message or the code 42P01, and creating the table fails too; it
    then throws the error of the creation. *)
Theorem getTransactionsPG_throws_only_when_creation_fails :
  forall (db : Database) (e : IOError),
    getTransactionsPG db = Throws e <->
    (exists e0, selectAll db = Throws e0) /\
    (exists message,
        errorMessage db = Some message /\ message <> EmptyString /\
        (includesText "does not exist" message = true \/
         errorCode db = Some "42P01")) /\
    createTable db = Throws e.
Proof.
  intros db e.
  assert (Hmissing : tableSeemsMissing db = true <->
                     exists message,
                       errorMessage db = Some message /\ message <> EmptyString /\
                       (includesText "does not exist" message = true \/
                        errorCode db = Some "42P01")).
  { unfold tableSeemsMissing. destruct (errorMessage db) as [message|].
    - simpl. rewrite andb_true_iff, orb_true_iff, negb_true_iff, unitEq_true.
      split.
      + intros [Hm Hc]. exists message. repeat split; auto.
        now destruct (String.eqb_spec message EmptyString).
      + intros [m [[= <-] [Hm Hc]]]. split; auto.
        now destruct (String.eqb_spec message EmptyString).
    - split; [discriminate|]. intros [m [Hm _]]. discriminate. }
  unfold getTransactionsPG, ensureTable.
  destruct (selectAll db) as [rows|e0]; simpl.
  - split; [discriminate|]. intros [[e1 H] _]. discriminate.
  - destruct (tableSeemsMissing db) eqn:M.
    + destruct (createTable db) as [[]|e']; simpl.
      * split; [discriminate|]. intros [_ [_ H]]. discriminate.
      * split.
        -- intros [= ->]. split; [now exists e0|]. split; auto. now apply Hmissing.
        -- intros [_ [_ [= ->]]]. reflexivity.
    + split; [discriminate|]. intros [_ [H _]].
      apply Hmissing in H. discriminate.
Qed.

(** X13: no transaction read from the database carries the empty string as
    its unit: a unit is absent or non-empty. *)
Theorem getTransactionsPG_has_no_empty_unit :
  forall (db : Database) (transactions : list Transaction),
    getTransactionsPG db = Returns transactions ->
    Forall (fun t => tx_unit t <> Some EmptyString) transactions.
Proof.
  intros db transactions. unfold getTransactionsPG, ensureTable.
  destruct (selectAll db) as [rows|e0]; simpl.
  - intros [= <-]. apply Forall_forall. intros t Hin.
    apply in_map_iff in Hin. destruct Hin as [row [<- _]]. unfold ofRow. simpl.
    destruct (tx_unit row) as [s|]; simpl; [|discriminate].
    destruct (String.eqb_spec s EmptyString); simpl; congruence.
  - destruct (tableSeemsMissing db); [destruct (createTable db); simpl|];
      try discriminate; intros [= <-]; constructor.
Qed.

Lemma getTransactionsPG_has_no_empty_unit_witness :
  Forall (fun t => tx_unit t <> Some EmptyString)
    [mkTransaction "1" 1 ADD "x" 2 None; Add 1 "egg" "stück"].
Proof.
  apply (getTransactionsPG_has_no_empty_unit
           (mkDatabase (Returns [mkTransaction "1" 1 ADD "x" 2 (Some EmptyString);
                                 Add 1 "egg" "stück"])
                       None None
                       (Returns tt))).
  reflexivity.
Defined.

(** ** Blob appends under every schedule *)

Lemma replace_Forall (P : Call -> Prop) (c : Call) (calls : list Call) :
  forall i, Forall P calls -> P c -> Forall P (replace i c calls).
Proof.
  induction calls as [|d rest IH]; intros i Hall Hc; destruct i; simpl;
    try constructor; inversion Hall; subst; auto.
Qed.

Lemma run_within (known : list Transaction) (schedule : list nat) :
  forall (blob : list Transaction) (calls : list Call),
    incl blob known ->
    Forall (callWithin known) calls ->
    incl (fst (run schedule blob calls)) known /\
    Forall (callWithin known) (snd (run schedule blob calls)).
Proof.
  induction schedule as [|i later IH]; intros blob calls Hblob Hcalls; simpl; auto.
  destruct (nth_error calls i) as [c|] eqn:E; auto.
  assert (Hc : callWithin known c).
  { apply nth_error_In in E. rewrite Forall_forall in Hcalls. auto. }
  destruct Hc as [Htx Hp].
  unfold resume. destruct (pending c) as [|snapshot|] eqn:P.
  - apply IH; auto. apply replace_Forall; auto. split; auto.
  - apply IH.
    + apply incl_app; auto. intros x [<-|[]]. exact Htx.
    + apply replace_Forall; auto. split; simpl; auto.
  - apply IH; auto. apply replace_Forall; auto. split; auto. now rewrite P.
Qed.

(** X15: whatever the schedule, blob appends never store a transaction
    that was neither stored before nor passed to one of the calls. *)
Theorem blob_appends_store_nothing_foreign :
  forall (schedule : list nat) (ts blob : list Transaction),
    incl (fst (run schedule blob (map addTransactionBlob ts))) (blob ++ ts).
Proof.
  intros schedule ts blob.
  apply (run_within (blob ++ ts) schedule).
  - apply incl_appl, incl_refl.
  - apply Forall_forall. intros c Hin. apply in_map_iff in Hin.
    destruct Hin as [t [<- Hin]]. split; simpl; auto.
    apply in_or_app. now right.
Qed.

(** ** From the parsed command to the ledger *)

Import Api.



Lemma POST_accepted (command : option string) (answer : Answer) (id name : string)
    (timestamp q : Z) (type : TxType) (b : Backend) (old : list Transaction) :
  truthy command = true ->
  accepted (parseCommand answer) = Some (type, name, q) ->
  readFails b = false ->
  writeFails b = false ->
  getTransactions b = Returns old ->
  POST command answer id timestamp b =
  (Status200
     (getInventory
        (old ++ [mkTransaction id timestamp type name
                   (n_quantity (normalize q (cmd_unit (parseCommand answer))))
                   (Some (n_unit (normalize q (cmd_unit (parseCommand answer)))))])),
   mkBackend
     (Json (old ++ [mkTransaction id timestamp type name
                      (n_quantity (normalize q (cmd_unit (parseCommand answer))))
                      (Some (n_unit (normalize q (cmd_unit (parseCommand answer)))))]))
     false false).
Proof.
  intros Hc Hacc R W Hold.
  unfold POST. rewrite Hc, Hacc.
  unfold Api.addTransaction, getInventoryOf.
  destruct b as [f r w]. simpl in R, W. subst r w.
  unfold getTransactions, existsSync, readFileSync in Hold.
  unfold getTransactionsLocal, ensureDataFile, writeFileSync, readFileSync.
  destruct f as [| l |]; simpl in *; injection Hold as <-; reflexivity.
Qed.



(** X18: on a backend whose reads and writes succeed, a POST with an
    accepted command is answered with status 200 and the inventory of the
    ledger as it was read before, followed by the new, normalised
    transaction; that ledger is what the backend holds afterwards. *)
Theorem POST_accepted_answers_with_the_new_inventory :
  forall (command : option string) (answer : Answer) (id name : string)
         (timestamp q : Z) (type : TxType) (b : Backend) (old : list Transaction),
    truthy command = true ->
    accepted (parseCommand answer) = Some (type, name, q) ->
    readFails b = false ->
    writeFails b = false ->
    getTransactions b = Returns old ->
    POST command answer id timestamp b =
    (Status200
       (getInventory
          (old ++ [mkTransaction id timestamp type name
                     (n_quantity (normalize q (cmd_unit (parseCommand answer))))
                     (Some (n_unit (normalize q (cmd_unit (parseCommand answer)))))])),
     mkBackend
       (Json (old ++ [mkTransaction id timestamp type name
                        (n_quantity (normalize q (cmd_unit (parseCommand answer))))
                        (Some (n_unit (normalize q (cmd_unit (parseCommand answer)))))]))
       false false).
Proof.
  intros command answer id name timestamp q type b old.
  apply POST_accepted.
Qed.

Lemma POST_accepted_answers_with_the_new_inventory_witness :
  POST (Some "Füge zwei Kilo Mehl hinzu")
       (Parsed (mkParsedData (Some "add") (Some "Mehl") (Some 2) (Some "Kilo")))
       "17" 17 (mkBackend (Json [Add 3 "Eier" "stück"]) false false) =
  (Status200 [mkItem "Eier" 3 (Some "stück"); mkItem "Mehl" 2000 (Some "g")],
   mkBackend (Json [Add 3 "Eier" "stück";
                    mkTransaction "17" 17 ADD "Mehl" 2000 (Some "g")])
             false false).
Proof.
  apply (POST_accepted_answers_with_the_new_inventory
           (Some "Füge zwei Kilo Mehl hinzu")
           (Parsed (mkParsedData (Some "add") (Some "Mehl") (Some 2) (Some "Kilo")))
           "17" "Mehl" 17 2 ADD
           (mkBackend (Json [Add 3 "Eier" "stück"]) false false)
           [Add 3 "Eier" "stück"]); reflexivity.
Defined.

(** ** normalize twice *)

(** A property of one byte, by evaluation on each of the 256 bytes. *)
Ltac each_char c := destruct c as [[] [] [] [] [] [] [] []]; vm_compute; intuition congruence.

Lemma space_char (c : ascii) :
  isSpace c = true -> Nat.eqb (code c) 195 = false /\ isUpper c = false.
Proof. each_char c. Qed.

Lemma upper_char (c : ascii) :
  isUpper c = true ->
  Nat.eqb (code c) 195 = false /\
  isSpace c = false /\ isSpace (shift32 c) = false /\
  isUpper (shift32 c) = false /\ Nat.eqb (code (shift32 c)) 195 = false /\
  isUpperLatin1 (shift32 c) = false.
Proof. each_char c. Qed.

Lemma upperLatin1_char (d : ascii) :
  isUpperLatin1 d = true ->
  isSpace d = false /\ isSpace (shift32 d) = false /\
  isUpper (shift32 d) = false /\ Nat.eqb (code (shift32 d)) 195 = false /\
  isUpperLatin1 (shift32 d) = false.
Proof. each_char d. Qed.

Lemma lead_char (c : ascii) :
  Nat.eqb (code c) 195 = true ->
  isSpace c = false /\ isUpper c = false /\ isUpperLatin1 c = false.
Proof. each_char c. Qed.

Lemma toLowerCase_pair (c d : ascii) (rest : string) :
  Nat.eqb (code c) 195 = true -> isUpperLatin1 d = true ->
  toLowerCase (String c (String d rest)) =
  String c (String (shift32 d) (toLowerCase rest)).
Proof. intros Hc Hd. simpl. now rewrite Hc, Hd. Qed.

Lemma toLowerCase_lead (c : ascii) (rest : string) :
  Nat.eqb (code c) 195 = true -> headNotUpperLatin1 rest ->
  toLowerCase (String c rest) = String c (toLowerCase rest).
Proof.
  intros Hc Hrest. destruct rest as [|d rest]; simpl; rewrite Hc; auto.
  simpl in Hrest. now rewrite Hrest.
Qed.

Lemma toLowerCase_upper (c : ascii) (rest : string) :
  isUpper c = true ->
  toLowerCase (String c rest) = String (shift32 c) (toLowerCase rest).
Proof.
  intros Hc. destruct (upper_char c Hc) as [H195 _]. simpl. now rewrite H195, Hc.
Qed.

Lemma toLowerCase_other (c : ascii) (rest : string) :
  Nat.eqb (code c) 195 = false -> isUpper c = false ->
  toLowerCase (String c rest) = String c (toLowerCase rest).
Proof. intros H195 Hc. simpl. now rewrite H195, Hc. Qed.

(** Case analysis on the first bytes of a string, as [toLowerCase] does it. *)
Lemma firstBytes (c : ascii) (rest : string) :
  (Nat.eqb (code c) 195 = true /\
   exists d r, rest = String d r /\ isUpperLatin1 d = true) \/
  (Nat.eqb (code c) 195 = true /\ headNotUpperLatin1 rest) \/
  isUpper c = true \/
  (Nat.eqb (code c) 195 = false /\ isUpper c = false).
Proof.
  destruct (Nat.eqb (code c) 195) eqn:Hc.
  - destruct rest as [|d rest]; [right; left; simpl; auto|].
    destruct (isUpperLatin1 d) eqn:Hd.
    + left. split; auto. now exists d, rest.
    + right. left. auto.
  - destruct (isUpper c) eqn:Hu; auto.
Qed.

Lemma toLowerCase_head (s : string) :
  headNotUpperLatin1 s -> headNotUpperLatin1 (toLowerCase s).
Proof.
  destruct s as [|c rest]; auto. intros H.
  destruct (firstBytes c rest) as [[Hc [d [r [-> Hd]]]]|[[Hc Hr]|[Hc|[Hc Hu]]]].
  - rewrite toLowerCase_pair by assumption. apply (lead_char c Hc).
  - rewrite toLowerCase_lead by assumption. apply (lead_char c Hc).
  - rewrite toLowerCase_upper by assumption. apply (upper_char c Hc).
  - rewrite toLowerCase_other by assumption. exact H.
Qed.

(** Induction that may step over two bytes. *)
Lemma string_pair_ind (P : string -> Prop) :
  P EmptyString ->
  (forall c, P (String c EmptyString)) ->
  (forall c d rest, P rest -> P (String d rest) -> P (String c (String d rest))) ->
  forall s, P s.
Proof.
  intros H0 H1 H2 s.
  assert (H : P s /\ forall c, P (String c s)).
  { induction s as [|d rest [IH1 IH2]]; split; auto. }
  apply H.
Qed.

Lemma toLowerCase_idempotent (s : string) :
  toLowerCase (toLowerCase s) = toLowerCase s.
Proof.
  assert (Hstep : forall c rest,
             toLowerCase (toLowerCase rest) = toLowerCase rest ->
             (forall d r, rest = String d r ->
                          toLowerCase (toLowerCase r) = toLowerCase r) ->
             toLowerCase (toLowerCase (String c rest)) = toLowerCase (String c rest)).
  { intros c rest IH1 IH2.
    destruct (firstBytes c rest) as [[Hc [d [r [-> Hd]]]]|[[Hc Hr]|[Hc|[Hc Hu]]]].
    - rewrite toLowerCase_pair by assumption.
      destruct (upperLatin1_char d Hd) as [_ [_ [Hu [H195 Hul]]]].
      rewrite toLowerCase_lead by (auto; exact Hul).
      rewrite toLowerCase_other by assumption.
      now rewrite (IH2 d r eq_refl).
    - rewrite toLowerCase_lead by assumption.
      rewrite toLowerCase_lead by (auto using toLowerCase_head).
      now rewrite IH1.
    - rewrite toLowerCase_upper by assumption.
      destruct (upper_char c Hc) as [_ [_ [_ [Hu [H195 _]]]]].
      rewrite toLowerCase_other by assumption. now rewrite IH1.
    - rewrite toLowerCase_other by assumption.
      rewrite toLowerCase_other by assumption. now rewrite IH1. }
  induction s as [| c | c d rest IH1 IH2] using string_pair_ind.
  - reflexivity.
  - apply Hstep; [reflexivity|discriminate].
  - apply Hstep; auto. now intros d' r [= -> ->].
Qed.

Lemma trimStart_fixed (s : string) : headNotSpace s -> trimStart s = s.
Proof. destruct s as [|c rest]; simpl; auto. now intros ->. Qed.

Lemma trimStart_head (s : string) : headNotSpace (trimStart s).
Proof.
  induction s as [|c rest IH]; simpl; auto.
  destruct (isSpace c) eqn:E; auto.
Qed.

Lemma toLowerCase_headNotSpace (s : string) :
  headNotSpace s -> headNotSpace (toLowerCase s).
Proof.
  destruct s as [|c rest]; auto. intros H.
  destruct (firstBytes c rest) as [[Hc [d [r [-> Hd]]]]|[[Hc Hr]|[Hc|[Hc Hu]]]].
  - rewrite toLowerCase_pair by assumption. apply (lead_char c Hc).
  - rewrite toLowerCase_lead by assumption. apply (lead_char c Hc).
  - rewrite toLowerCase_upper by assumption. apply (upper_char c Hc).
  - rewrite toLowerCase_other by assumption. exact H.
Qed.

Lemma trimStart_space (c : ascii) (rest : string) :
  isSpace c = true -> trimStart (String c rest) = trimStart rest.
Proof. intros E. simpl. now rewrite E. Qed.

Lemma toLowerCase_trimStart (s : string) :
  toLowerCase (trimStart s) = trimStart (toLowerCase s).
Proof.
  induction s as [|c rest IH]; auto.
  destruct (isSpace c) eqn:E.
  - destruct (space_char c E) as [H195 Hu].
    rewrite toLowerCase_other by assumption.
    rewrite !trimStart_space by exact E. exact IH.
  - rewrite (trimStart_fixed (String c rest)) by exact E.
    symmetry. apply trimStart_fixed. apply toLowerCase_headNotSpace. exact E.
Qed.

(** [trimEnd], byte by byte. *)

Lemma reverse_empty : reverse EmptyString = EmptyString.
Proof. reflexivity. Qed.

Lemma reverse_cons (c : ascii) (s : string) :
  reverse (String c s) = (reverse s ++ String c EmptyString)%string.
Proof.
  unfold reverse. simpl.
  generalize (rev (list_ascii_of_string s)). intros l.
  induction l as [|a l IH]; simpl; auto. now rewrite IH.
Qed.

Lemma reverse_snoc (c : ascii) (s : string) :
  reverse (s ++ String c EmptyString) = String c (reverse s).
Proof.
  induction s as [|a s IH]; auto.
  simpl append. now rewrite !reverse_cons, IH.
Qed.

Lemma reverse_involutive (s : string) : reverse (reverse s) = s.
Proof.
  induction s as [|c s IH]; auto.
  now rewrite reverse_cons, reverse_snoc, IH.
Qed.

Lemma trimStart_snoc (c : ascii) (s : string) :
  trimStart (s ++ String c EmptyString) =
  match trimStart s with
  | EmptyString => trimStart (String c EmptyString)
  | t => (t ++ String c EmptyString)%string
  end.
Proof.
  induction s as [|a s IH]; auto.
  simpl append. destruct (isSpace a) eqn:E.
  - rewrite !trimStart_space by exact E. exact IH.
  - rewrite (trimStart_fixed (String a (s ++ String c EmptyString))) by exact E.
    now rewrite (trimStart_fixed (String a s)) by exact E.
Qed.

Lemma trimEnd_cons (c : ascii) (rest : string) :
  trimEnd (String c rest) =
  match trimEnd rest with
  | EmptyString => if isSpace c then EmptyString else String c EmptyString
  | t => String c t
  end.
Proof.
  unfold trimEnd. rewrite reverse_cons, trimStart_snoc.
  destruct (trimStart (reverse rest)) as [|a t] eqn:T.
  - simpl. now destruct (isSpace c).
  - rewrite reverse_snoc.
    destruct (reverse (String a t)) eqn:R; auto.
    apply (f_equal reverse) in R. rewrite reverse_involutive in R. discriminate.
Qed.

Lemma trimEnd_empty : trimEnd EmptyString = EmptyString.
Proof. reflexivity. Qed.

Lemma trimEnd_nonspace (c : ascii) (rest : string) :
  isSpace c = false -> trimEnd (String c rest) = String c (trimEnd rest).
Proof.
  intros E. rewrite trimEnd_cons, E. now destruct (trimEnd rest).
Qed.

Lemma trimEnd_space (c : ascii) (rest : string) :
  isSpace c = true ->
  trimEnd (String c rest) =
  match trimEnd rest with
  | EmptyString => EmptyString
  | t => String c t
  end.
Proof. intros E. now rewrite trimEnd_cons, E. Qed.

Lemma trimEnd_headNotUpperLatin1 (s : string) :
  headNotUpperLatin1 s -> headNotUpperLatin1 (trimEnd s).
Proof.
  destruct s as [|c rest]; auto. intros H.
  rewrite trimEnd_cons. destruct (trimEnd rest); [destruct (isSpace c)|]; simpl; auto.
Qed.

Lemma toLowerCase_nonempty (c : ascii) (rest : string) :
  toLowerCase (String c rest) <> EmptyString.
Proof.
  destruct (firstBytes c rest) as [[Hc [d [r [-> Hd]]]]|[[Hc Hr]|[Hc|[Hc Hu]]]].
  - now rewrite toLowerCase_pair.
  - now rewrite toLowerCase_lead.
  - now rewrite toLowerCase_upper.
  - now rewrite toLowerCase_other.
Qed.

Lemma toLowerCase_trimEnd (s : string) :
  toLowerCase (trimEnd s) = trimEnd (toLowerCase s).
Proof.
  assert (Hstep : forall c rest,
             toLowerCase (trimEnd rest) = trimEnd (toLowerCase rest) ->
             (forall d r, rest = String d r ->
                          toLowerCase (trimEnd r) = trimEnd (toLowerCase r)) ->
             toLowerCase (trimEnd (String c rest)) = trimEnd (toLowerCase (String c rest))).
  { intros c rest IH1 IH2.
    destruct (firstBytes c rest) as [[Hc [d [r [-> Hd]]]]|[[Hc Hr]|[Hc|[Hc Hu]]]].
    - destruct (lead_char c Hc) as [Hsc _].
      destruct (upperLatin1_char d Hd) as [Hsd [Hsd' _]].
      rewrite toLowerCase_pair by assumption.
      rewrite !trimEnd_nonspace by assumption.
      rewrite toLowerCase_pair by assumption.
      now rewrite (IH2 d r eq_refl).
    - destruct (lead_char c Hc) as [Hsc _].
      rewrite toLowerCase_lead by assumption.
      rewrite !trimEnd_nonspace by assumption.
      rewrite toLowerCase_lead by auto using trimEnd_headNotUpperLatin1.
      now rewrite IH1.
    - destruct (upper_char c Hc) as [_ [Hsc [Hsc' _]]].
      rewrite toLowerCase_upper by assumption.
      rewrite !trimEnd_nonspace by assumption.
      rewrite toLowerCase_upper by assumption.
      now rewrite IH1.
    - rewrite toLowerCase_other by assumption.
      destruct (isSpace c) eqn:E.
      + rewrite !trimEnd_space by assumption. rewrite <- IH1.
        destruct (trimEnd rest) as [|a t]; auto.
        rewrite toLowerCase_other by assumption.
        destruct (toLowerCase (String a t)) eqn:T; auto.
        now apply toLowerCase_nonempty in T.
      + rewrite !trimEnd_nonspace by assumption.
        rewrite toLowerCase_other by assumption. now rewrite IH1. }
  induction s as [| c | c d rest IH1 IH2] using string_pair_ind.
  - reflexivity.
  - apply Hstep; [reflexivity|discriminate].
  - apply Hstep; auto. now intros d' r [= -> ->].
Qed.

Lemma trimEnd_headNotSpace (s : string) :
  headNotSpace s -> headNotSpace (trimEnd s).
Proof.
  destruct s as [|c rest]; auto. intros H. simpl in H.
  now rewrite trimEnd_nonspace.
Qed.

Lemma trimEnd_idempotent (s : string) : trimEnd (trimEnd s) = trimEnd s.
Proof.
  unfold trimEnd. rewrite reverse_involutive.
  now rewrite (trimStart_fixed (trimStart _)) by apply trimStart_head.
Qed.

Lemma trim_idempotent (s : string) : trim (trim s) = trim s.
Proof.
  unfold trim.
  rewrite (trimStart_fixed (trimEnd _))
    by apply trimEnd_headNotSpace, trimStart_head.
  apply trimEnd_idempotent.
Qed.

(** Lower-casing and trimming a label that was lower-cased and trimmed
    changes nothing. *)
Lemma lowered_and_trimmed (label : string) :
  trim (toLowerCase (trim (toLowerCase label))) = trim (toLowerCase label).
Proof.
  unfold trim at 2.
  rewrite toLowerCase_trimEnd, toLowerCase_trimStart, toLowerCase_idempotent.
  apply trim_idempotent.
Qed.

(** What [normalize] returns is the empty unit with the quantity given, or
    a pair that [normalize] maps to itself. *)
Lemma normalize_result (q : Z) (label : option string) :
  exists k v,
    normalize q label = mkNormalized k v /\
    (v = EmptyString /\ k = q \/
     v <> EmptyString /\ normalize k (Some v) = mkNormalized k v).
Proof.
  destruct label as [label|];
    [|exists q, stueck; split; [reflexivity|right; split; [discriminate|reflexivity]]].
  unfold normalize at 1.
  destruct (truthy (Some label)); simpl negb; cbv iota;
    [|exists q, stueck; split; [reflexivity|right; split; [discriminate|reflexivity]]].
  set (u := trim (toLowerCase label)).
  destruct (includes ["kg"; "kilo"; "kilogramm"] u) eqn:E1;
    [eexists _, _; split; [reflexivity|right; split; [discriminate|reflexivity]]|].
  destruct (includes ["g"; "gramm"; "gr"] u) eqn:E2;
    [eexists _, _; split; [reflexivity|right; split; [discriminate|reflexivity]]|].
  destruct (includes ["l"; "liter"] u) eqn:E3;
    [eexists _, _; split; [reflexivity|right; split; [discriminate|reflexivity]]|].
  destruct (includes ["ml"; "milliliter"] u) eqn:E4;
    [eexists _, _; split; [reflexivity|right; split; [discriminate|reflexivity]]|].
  exists q, u. split; [reflexivity|].
  destruct (String.eqb_spec u EmptyString) as [Hu|Hu]; [left; auto|right].
  split; auto.
  rewrite (normalize_lowered q u u) by (auto; apply lowered_and_trimmed).
  now rewrite E1, E2, E3, E4.
Qed.

(** X19: [normalize] is idempotent on what it returns: normalising the
    quantity and unit it returned gives them back, as long as the unit is
    not empty.  The empty unit, which is what a blank label gives, turns
    into "stück" the second time. *)
Theorem normalize_is_idempotent :
  forall (q : Z) (label : option string),
    (n_unit (normalize q label) <> EmptyString ->
     normalize (n_quantity (normalize q label)) (Some (n_unit (normalize q label))) =
     normalize q label) /\
    (n_unit (normalize q label) = EmptyString ->
     normalize (n_quantity (normalize q label)) (Some (n_unit (normalize q label))) =
     mkNormalized q "stück").
Proof.
  intros q label.
  destruct (normalize_result q label) as [k [v [-> H]]]. simpl.
  destruct H as [[-> ->]|[Hv Hn]]; split; intros H; auto; contradiction.
Qed.

Lemma normalize_is_idempotent_witness :
  normalize 2000 (Some "g") = normalize 2 (Some " Kilo ") /\
  normalize 7 (Some EmptyString) = mkNormalized 7 "stück".
Proof.
  split.
  - apply (proj1 (normalize_is_idempotent 2 (Some " Kilo "))). discriminate.
  - apply (proj2 (normalize_is_idempotent 7 (Some "  "))). reflexivity.
Defined.

(** ** Names count by their lower-case form only *)

Lemma keyOf_lowerCased (tx : Transaction) : keyOf (lowerCased tx) = keyOf tx.
Proof. unfold keyOf, lowerCased. simpl. apply toLowerCase_idempotent. Qed.

Lemma step_lowerCased (m : InventoryMap) (tx : Transaction) :
  step m (lowerCased tx) = step m tx.
Proof.
  unfold step, ensure, initial, update. now rewrite keyOf_lowerCased.
Qed.

Lemma fold_lowerCased (transactions : list Transaction) :
  forall m,
    fold_left step (map lowerCased transactions) m = fold_left step transactions m.
Proof.
  induction transactions as [|tx rest IH]; intros m; simpl; auto.
  now rewrite step_lowerCased.
Qed.

Lemma find_lowerCased (key : string) (transactions : list Transaction) :
  find (fun t => String.eqb (keyOf t) key) (map lowerCased transactions) =
  option_map lowerCased (find (fun t => String.eqb (keyOf t) key) transactions).
Proof.
  induction transactions as [|tx rest IH]; simpl; auto.
  rewrite keyOf_lowerCased. now destruct (String.eqb (keyOf tx) key).
Qed.

Lemma displayName_lowerCased (transactions : list Transaction) (key : string) :
  mentioned key transactions = true ->
  displayName (map lowerCased transactions) key =
  toLowerCase (displayName transactions key).
Proof.
  intros M. unfold displayName. rewrite <- map_rev, find_lowerCased.
  destruct (find _ (rev transactions)) as [t|] eqn:F; [reflexivity|].
  unfold mentioned in M. apply existsb_exists in M. destruct M as [t [Hin Ht]].
  apply find_none with (x := t) in F; [|now apply in_rev in Hin].
  unfold concerns in Ht. congruence.
Qed.

Lemma flat_map_lowerCased (transactions : list Transaction) :
  forall m : InventoryMap,
    (forall k, In k (keys m) -> mentioned k transactions = true) ->
    flat_map (emit (map lowerCased transactions)) m =
    map lowerCasedItem (flat_map (emit transactions) m).
Proof.
  induction m as [|[k e] rest IH]; intros Hkeys; auto.
  cbn [flat_map]. rewrite map_app, IH by (intros; apply Hkeys; simpl; auto).
  f_equal. unfold emit. destruct (quantity e >? 0); auto.
  simpl. unfold lowerCasedItem. simpl.
  rewrite displayName_lowerCased; auto. apply Hkeys. simpl. auto.
Qed.

(** X20: the fold takes names by their lower-case form only: writing every
    name of the ledger in lower case changes no balance and no unit, and
    the snapshot is the same one with the names in lower case. *)
Theorem inventory_is_case_insensitive :
  forall transactions : list Transaction,
    foldTransactions (map lowerCased transactions) = foldTransactions transactions /\
    getInventory (map lowerCased transactions) =
    map lowerCasedItem (getInventory transactions).
Proof.
  intros transactions.
  assert (Hfold : foldTransactions (map lowerCased transactions) =
                  foldTransactions transactions) by apply fold_lowerCased.
  split; auto. unfold getInventory. rewrite Hfold.
  apply flat_map_lowerCased. apply folded_keys_are_mentioned.
Qed.

(** ** A key that was only ever removed *)

Lemma get_fold_never_positive (key : string) (transactions : list Transaction) :
  Forall (fun tx => concerns key tx = true ->
                    tx_type tx = REMOVE /\ tx_quantity tx >= 0) transactions ->
  forall m,
    (forall e, get key m = Some e -> quantity e <= 0) ->
    forall e, get key (fold_left step transactions m) = Some e -> quantity e <= 0.
Proof.
  induction 1 as [|tx rest Htx Hrest IH]; intros m Hm; simpl; auto.
  apply IH. intros e. rewrite get_step.
  destruct (concerns key tx) eqn:C; [|apply Hm].
  destruct (Htx eq_refl) as [Hrem Hq]. intros [= <-].
  assert (Hcur : quantity (currentOf m tx) <= 0).
  { unfold currentOf. apply String.eqb_eq in C. rewrite C.
    destruct (get key m) as [e|] eqn:G; [now apply Hm|simpl; lia]. }
  unfold update. rewrite Hrem.
  destruct (unitEq _ _); simpl; lia.
Qed.

(** X21: a key whose transactions are all Removes of quantities that are
    not negative is never shown, whatever their units and their order. *)
Theorem only_removed_is_never_shown :
  forall (transactions : list Transaction) (key : string),
    Forall (fun tx => concerns key tx = true ->
                      tx_type tx = REMOVE /\ tx_quantity tx >= 0) transactions ->
    itemsOf key (getInventory transactions) = [].
Proof.
  intros transactions key H. rewrite snapshot_of_key. unfold shown, emit.
  destruct (get key (foldTransactions transactions)) as [e|] eqn:G; auto.
  apply (get_fold_never_positive key transactions H []) in G; [|discriminate].
  now destruct (Z.gtb_spec (quantity e) 0); [lia|].
Qed.

Lemma only_removed_is_never_shown_witness :
  itemsOf "milk"
    (getInventory [Remove 1 "Milk" "stück"; Add 3 "egg" "stück"; Remove 200 "milk" "ml"]) = [].
Proof.
  apply (only_removed_is_never_shown
           [Remove 1 "Milk" "stück"; Add 3 "egg" "stück"; Remove 200 "milk" "ml"] "milk").
  repeat (apply Forall_cons; [cbv; intuition congruence|]). apply Forall_nil.
Defined.

(** ** An append that cannot read the ledger *)


